(** * A shallow embedding of the SFTP request server

    The development follows [request-server.go] (the single-worker request
    server: handle table, packet worker, REALPATH cleaning) and
    [ls_unix.go] together with its Plan 9 sibling (errno translation, file
    mode conversion).

    Conventions.  Go's fixed-width integers are carried by [Z]; [uint32]
    values stay in [0, 2^32) because the code only combines them with
    [&] and [|], and the signed [int] handle counter has its wrap-around
    written out.  Go strings are [string]; the handle table is a
    [gmap string Request]. *)

From Stdlib Require Import ZArith List Bool Ascii String Lia.
From stdpp Require Import base option gmap strings pretty.

Local Open Scope Z_scope.

(** ** Status codes, errno values and mode bits *)

(** Modelled from the spec: the SFTP status codes (section 6); the Go
    constants [sshFxOk] ... are declared elsewhere in the package. *)
Module Fx.
Definition sshFxOk : Z := 0.
Definition sshFxEOF : Z := 1.
Definition sshFxNoSuchFile : Z := 2.
Definition sshFxPermissionDenied : Z := 3.
Definition sshFxFailure : Z := 4.
Definition sshFxBadMessage : Z := 5.
Definition sshFxNoConnection : Z := 6.
Definition sshFxConnectionLost : Z := 7.
Definition sshFxOPUnsupported : Z := 8.
End Fx.
Export Fx.

(** Go's [syscall] package on Linux: [syscall.Errno] is a [uintptr]. *)
Module syscall.
Definition EPERM : Z := 1.
Definition ENOENT : Z := 2.
Definition EIO : Z := 5.
Definition EBADF : Z := 9.
Definition EACCES : Z := 13.

Definition S_IFMT : Z := 0xF000.
Definition S_IFSOCK : Z := 0xC000.
Definition S_IFLNK : Z := 0xA000.
Definition S_IFREG : Z := 0x8000.
Definition S_IFBLK : Z := 0x6000.
Definition S_IFDIR : Z := 0x4000.
Definition S_IFCHR : Z := 0x2000.
Definition S_IFIFO : Z := 0x1000.
Definition S_ISUID : Z := 0x800.
Definition S_ISGID : Z := 0x400.
Definition S_ISVTX : Z := 0x200.
End syscall.

(** The package-level [S_IFMT] used by [isRegular] and [toFileMode]. *)
Definition S_IFMT : Z := syscall.S_IFMT.

(** Go's [io/fs] mode bits ([fs.FileMode] is a [uint32]). *)
Module fs.
Definition ModeDir : Z := Z.shiftl 1 31.
Definition ModeAppend : Z := Z.shiftl 1 30.
Definition ModeExclusive : Z := Z.shiftl 1 29.
Definition ModeTemporary : Z := Z.shiftl 1 28.
Definition ModeSymlink : Z := Z.shiftl 1 27.
Definition ModeDevice : Z := Z.shiftl 1 26.
Definition ModeNamedPipe : Z := Z.shiftl 1 25.
Definition ModeSocket : Z := Z.shiftl 1 24.
Definition ModeSetuid : Z := Z.shiftl 1 23.
Definition ModeSetgid : Z := Z.shiftl 1 22.
Definition ModeCharDevice : Z := Z.shiftl 1 21.
Definition ModeSticky : Z := Z.shiftl 1 20.
Definition ModeIrregular : Z := Z.shiftl 1 19.

Definition ModeType : Z :=
    Z.lor ModeDir (Z.lor ModeSymlink (Z.lor ModeNamedPipe (Z.lor ModeSocket
      (Z.lor ModeDevice (Z.lor ModeCharDevice ModeIrregular))))).
Definition ModePerm : Z := 0x1FF. (* 0777 *)
End fs.

(** ** Errors *)

(** Go's [error] interface, restricted to the dynamic types the code
    distinguishes: a bare [syscall.Errno], an [*fs.PathError] wrapping
    another error, [io.EOF], and any other error with its text. *)
Inductive error : Type :=
| Errno (e : Z)
| PathError (Op Path : string) (Err : error)
| EOF
| errorString (msg : string).

(** ** [ls_unix.go] *)

Definition EBADF : Z := syscall.EBADF.

Definition wrapPathError (filepath : string) (err : error) : error :=
  match err with
  | Errno errno => PathError "" filepath (Errno errno)
  | _ => err
  end.

Definition translateErrno (errno : Z) : Z :=
  if errno =? 0 then sshFxOk
  else if errno =? syscall.ENOENT then sshFxNoSuchFile
  else if (errno =? syscall.EACCES) || (errno =? syscall.EPERM)
       then sshFxPermissionDenied
  else sshFxFailure.

Definition translateSyscallError (err : error) : Z * bool :=
  match err with
  | Errno e => (translateErrno e, true)
  | PathError _ _ (Errno errno) => (translateErrno errno, true)
  | _ => (0, false)
  end.

Definition isRegular (mode : Z) : bool :=
  Z.land mode S_IFMT =? syscall.S_IFREG.

Definition toFileMode (mode : Z) : Z :=
  let fm := Z.land mode 0x1FF in
  let fm :=
    let t := Z.land mode S_IFMT in
    if t =? syscall.S_IFBLK then Z.lor fm fs.ModeDevice
    else if t =? syscall.S_IFCHR
         then Z.lor fm (Z.lor fs.ModeDevice fs.ModeCharDevice)
    else if t =? syscall.S_IFDIR then Z.lor fm fs.ModeDir
    else if t =? syscall.S_IFIFO then Z.lor fm fs.ModeNamedPipe
    else if t =? syscall.S_IFLNK then Z.lor fm fs.ModeSymlink
    else if t =? syscall.S_IFREG then fm
    else if t =? syscall.S_IFSOCK then Z.lor fm fs.ModeSocket
    else fm in
  let fm := if negb (Z.land mode syscall.S_ISUID =? 0)
            then Z.lor fm fs.ModeSetuid else fm in
  let fm := if negb (Z.land mode syscall.S_ISGID =? 0)
            then Z.lor fm fs.ModeSetgid else fm in
  let fm := if negb (Z.land mode syscall.S_ISVTX =? 0)
            then Z.lor fm fs.ModeSticky else fm in
  fm.

Definition fromFileMode (mode : Z) : Z :=
  let ret := Z.land mode fs.ModePerm in
  let ret :=
    let t := Z.land mode fs.ModeType in
    if t =? Z.lor fs.ModeDevice fs.ModeCharDevice
    then Z.lor ret syscall.S_IFCHR
    else if t =? fs.ModeDevice then Z.lor ret syscall.S_IFBLK
    else if t =? fs.ModeDir then Z.lor ret syscall.S_IFDIR
    else if t =? fs.ModeNamedPipe then Z.lor ret syscall.S_IFIFO
    else if t =? fs.ModeSymlink then Z.lor ret syscall.S_IFLNK
    else if t =? 0 then Z.lor ret syscall.S_IFREG
    else if t =? fs.ModeSocket then Z.lor ret syscall.S_IFSOCK
    else ret in
  let ret := if negb (Z.land mode fs.ModeSetuid =? 0)
             then Z.lor ret syscall.S_ISUID else ret in
  let ret := if negb (Z.land mode fs.ModeSetgid =? 0)
             then Z.lor ret syscall.S_ISGID else ret in
  let ret := if negb (Z.land mode fs.ModeSticky =? 0)
             then Z.lor ret syscall.S_ISVTX else ret in
  ret.

(** ** The Plan 9 sibling of [ls_unix.go]

    On Plan 9 a system error is a [syscall.ErrorString]; the three values
    below are the ones Go's [syscall] package declares for that port. *)
Module plan9.
Definition ENOENT : string := "file does not exist".
Definition EPERM : string := "permission denied".
Definition EACCES : string := "access permission denied".

Definition translateErrno (errno : string) : Z :=
    if String.eqb errno "" then sshFxOk
    else if String.eqb errno ENOENT then sshFxNoSuchFile
    else if String.eqb errno EPERM then sshFxPermissionDenied
    else sshFxFailure.

(** Go's [error] interface as the Plan 9 file distinguishes it: a bare
    [syscall.ErrorString], an [*fs.PathError] and anything else. *)
Inductive error : Type :=
| ErrorString (s : string)
| PathError (Op Path : string) (Err : error)
| otherError (msg : string).

Definition wrapPathError (filepath : string) (err : error) : error :=
  match err with
  | ErrorString errno => PathError "" filepath (ErrorString errno)
  | _ => err
  end.

Definition translateSyscallError (err : error) : Z * bool :=
  match err with
  | ErrorString e => (translateErrno e, true)
  | PathError _ _ (ErrorString errno) => (translateErrno errno, true)
  | _ => (0, false)
  end.

Definition isRegular (mode : Z) : bool :=
  Z.land mode S_IFMT =? syscall.S_IFREG.

Definition toFileMode (mode : Z) : Z :=
  let fm := Z.land mode 0x1FF in
  let fm :=
    let t := Z.land mode S_IFMT in
    if t =? syscall.S_IFBLK then Z.lor fm fs.ModeDevice
    else if t =? syscall.S_IFCHR
         then Z.lor fm (Z.lor fs.ModeDevice fs.ModeCharDevice)
    else if t =? syscall.S_IFDIR then Z.lor fm fs.ModeDir
    else if t =? syscall.S_IFIFO then Z.lor fm fs.ModeNamedPipe
    else if t =? syscall.S_IFLNK then Z.lor fm fs.ModeSymlink
    else if t =? syscall.S_IFREG then fm
    else if t =? syscall.S_IFSOCK then Z.lor fm fs.ModeSocket
    else fm in
  fm.

Definition fromFileMode (mode : Z) : Z :=
  let ret := Z.land mode fs.ModePerm in
  let ret :=
    let t := Z.land mode fs.ModeType in
    if t =? Z.lor fs.ModeDevice fs.ModeCharDevice
    then Z.lor ret syscall.S_IFCHR
    else if t =? fs.ModeDevice then Z.lor ret syscall.S_IFBLK
    else if t =? fs.ModeDir then Z.lor ret syscall.S_IFDIR
    else if t =? fs.ModeNamedPipe then Z.lor ret syscall.S_IFIFO
    else if t =? fs.ModeSymlink then Z.lor ret syscall.S_IFLNK
    else if t =? 0 then Z.lor ret syscall.S_IFREG
    else if t =? fs.ModeSocket then Z.lor ret syscall.S_IFSOCK
    else ret in
  ret.

(** Plan 9 has no setuid, setgid or sticky bit; the package keeps their
    POSIX values for what a client sends to a POSIX server. *)
Definition s_ISUID : Z := 0x800. (* 04000 *)
Definition s_ISGID : Z := 0x400. (* 02000 *)
Definition s_ISVTX : Z := 0x200. (* 01000 *)
End plan9.

(** ** Lexical path cleaning

    [cleanPath] goes through Go's [filepath.Clean] and [filepath.ToSlash].
    On the POSIX builds the separator is ['/'], there is no volume name and
    [ToSlash] is the identity.  [Clean] is the library's loop: [path] is
    what remains to read, [out] is the output buffer kept newest byte
    first (so [length out] is the write index [w]) and [dotdot] is the
    index below which [..] may not backtrack.  The inner loop that copies
    a path element is the [copying] mode of the same recursion. *)

Definition isPathSeparator (c : ascii) : bool := Ascii.eqb c "/".
Definition isDot (c : ascii) : bool := Ascii.eqb c ".".

(** [out.w--] followed by [for out.w > dotdot && !sep(out.index(out.w))]. *)
Fixpoint backtrack (dotdot : nat) (out : list ascii) : list ascii :=
  match out with
  | [] => []
  | c :: out' =>
      if (dotdot <? length out')%nat && negb (isPathSeparator c)
      then backtrack dotdot out'
      else out'
  end.

Definition atElementEnd (rest : list ascii) : bool :=
  match rest with
  | [] => true
  | c :: _ => isPathSeparator c
  end.

(** "add slash if needed":
    [if rooted && out.w != 1 || !rooted && out.w != 0]. *)
Definition addSlash (rooted : bool) (out : list ascii) : list ascii :=
  if (rooted && negb (length out =? 1)%nat)
     || (negb rooted && negb (length out =? 0)%nat)
  then "/"%char :: out else out.

Fixpoint cleanLoop (rooted copying : bool) (path out : list ascii)
    (dotdot : nat) : list ascii :=
  match path with
  | [] => out
  | c :: rest =>
      if isPathSeparator c then
        (* empty path element, or the end of the element being copied *)
        cleanLoop rooted false rest out dotdot
      else if copying then
        cleanLoop rooted true rest (c :: out) dotdot
      else if isDot c && atElementEnd rest then
        (* . element *)
        cleanLoop rooted false rest out dotdot
      else
        match rest with
        | c1 :: rest2 =>
            if isDot c && isDot c1 && atElementEnd rest2 then
              (* .. element: remove to last separator *)
              if (dotdot <? length out)%nat then
                (* can backtrack *)
                cleanLoop rooted false rest2 (backtrack dotdot out) dotdot
              else if negb rooted then
                (* cannot backtrack, but not rooted: append .. element *)
                let out1 :=
                  if (0 <? length out)%nat then "/"%char :: out else out in
                let out2 := "."%char :: "."%char :: out1 in
                cleanLoop rooted false rest2 out2 (length out2)
              else cleanLoop rooted false rest2 out dotdot
            else
              (* real path element: add slash if needed, copy element *)
              cleanLoop rooted true rest (c :: addSlash rooted out) dotdot
        | [] =>
            cleanLoop rooted true rest (c :: addSlash rooted out) dotdot
        end
  end.

Definition Clean (path : string) : string :=
  match list_ascii_of_string path with
  | [] => "."
  | c :: rest =>
      let rooted := isPathSeparator c in
      let out :=
        if rooted then cleanLoop true false rest ["/"%char] 1
        else cleanLoop false false (c :: rest) [] 0 in
      (* Turn empty string into "." *)
      let out := if (length out =? 0)%nat then ["."%char] else out in
      string_of_list_ascii (rev out)
  end.

Definition ToSlash (path : string) : string := path.

Definition HasPrefix (s prefix : string) : bool := String.prefix prefix s.

Definition cleanPath (path : string) : string :=
  let cleanSlashPath := ToSlash (Clean path) in
  if negb (HasPrefix cleanSlashPath "/") then "/" ++ cleanSlashPath
  else cleanSlashPath.

(** ** Packets *)

(** Modelled from the spec: the attrs record is a flags word followed by
    the fields whose flags are set (section 3); its Go declaration is
    elsewhere in the package.  [emptyFileStat] is the attrs value with no
    field present. *)
Record FileAttrs : Type := mkFileAttrs {
  AttrFlags : Z;
  AttrFields : list Byte.byte
}.

Definition emptyFileStat : FileAttrs := mkFileAttrs 0 [].

Record sshFxpNameAttr : Type := mkNameAttr {
  Name : string;
  LongName : string;
  Attrs : FileAttrs
}.

(** Modelled from the spec: the request packet set of section 6 with the
    inputs of section 4.4.  The Go packet structs are declared elsewhere
    in the package; the fields the worker reads ([ID], [Handle], [Path],
    [Flags], [Attrs]) keep their names. *)
Inductive requestPacket : Type :=
| sshFxInitPacket (Version : Z)
| sshFxpOpenPacket (ID : Z) (Path : string) (Pflags : Z) (Flags : Z)
| sshFxpClosePacket (ID : Z) (Handle : string)
| sshFxpReadPacket (ID : Z) (Handle : string) (Offset : Z) (Len : Z)
| sshFxpWritePacket (ID : Z) (Handle : string) (Offset : Z)
    (Data : list Byte.byte)
| sshFxpLstatPacket (ID : Z) (Path : string)
| sshFxpFstatPacket (ID : Z) (Handle : string)
| sshFxpSetstatPacket (ID : Z) (Path : string) (Flags : Z)
    (Attrs : list Byte.byte)
| sshFxpFsetstatPacket (ID : Z) (Handle : string) (Flags : Z)
    (Attrs : list Byte.byte)
| sshFxpOpendirPacket (ID : Z) (Path : string)
| sshFxpReaddirPacket (ID : Z) (Handle : string)
| sshFxpRemovePacket (ID : Z) (Filename : string)
| sshFxpMkdirPacket (ID : Z) (Path : string) (Flags : Z)
| sshFxpRmdirPacket (ID : Z) (Path : string)
| sshFxpRealpathPacket (ID : Z) (Path : string)
| sshFxpStatPacket (ID : Z) (Path : string)
| sshFxpRenamePacket (ID : Z) (Oldpath Newpath : string)
| sshFxpReadlinkPacket (ID : Z) (Path : string)
| sshFxpSymlinkPacket (ID : Z) (Targetpath Linkpath : string)
| sshFxpExtendedPacket (ID : Z) (ExtendedRequest : string)
    (Payload : list Byte.byte).

(** Modelled from the spec: the reply packet set of section 6 (VERSION,
    STATUS, HANDLE, DATA, NAME, ATTRS, EXTENDED_REPLY). *)
Inductive responsePacket : Type :=
| sshFxVersionPacket (Version : Z) (Extensions : list (string * string))
| sshFxpStatusResponse (ID : Z) (Code : Z) (msg : string)
| sshFxpHandlePacket (ID : Z) (Handle : string)
| sshFxpDataPacket (ID : Z) (Data : list Byte.byte)
| sshFxpNamePacket (ID : Z) (NameAttrs : list sshFxpNameAttr)
| sshFxpStatResponse (ID : Z) (info : FileAttrs)
| sshFxpExtendedReply (ID : Z) (Payload : list Byte.byte).

(** The reply discriminator. *)
Inductive replyShape : Type :=
| VERSION | STATUS | HANDLE | DATA | NAME | ATTRS | EXTENDED_REPLY.

Definition shapeOf (rpkt : responsePacket) : replyShape :=
  match rpkt with
  | sshFxVersionPacket _ _ => VERSION
  | sshFxpStatusResponse _ _ _ => STATUS
  | sshFxpHandlePacket _ _ => HANDLE
  | sshFxpDataPacket _ _ => DATA
  | sshFxpNamePacket _ _ => NAME
  | sshFxpStatResponse _ _ => ATTRS
  | sshFxpExtendedReply _ _ => EXTENDED_REPLY
  end.

(** The six reply shapes of section 3 of the specification. *)
Definition isReply (rpkt : responsePacket) : bool :=
  match shapeOf rpkt with
  | VERSION => false
  | _ => true
  end.

Definition statusCode (rpkt : responsePacket) : option Z :=
  match rpkt with
  | sshFxpStatusResponse _ code _ => Some code
  | _ => None
  end.

(** [pkt.id()]; INIT carries no id and answers 0. *)
Definition id (pkt : requestPacket) : Z :=
  match pkt with
  | sshFxInitPacket _ => 0
  | sshFxpOpenPacket i _ _ _ | sshFxpClosePacket i _
  | sshFxpReadPacket i _ _ _ | sshFxpWritePacket i _ _ _
  | sshFxpLstatPacket i _ | sshFxpFstatPacket i _
  | sshFxpSetstatPacket i _ _ _ | sshFxpFsetstatPacket i _ _ _
  | sshFxpOpendirPacket i _ | sshFxpReaddirPacket i _
  | sshFxpRemovePacket i _ | sshFxpMkdirPacket i _ _
  | sshFxpRmdirPacket i _ | sshFxpRealpathPacket i _
  | sshFxpStatPacket i _ | sshFxpRenamePacket i _ _
  | sshFxpReadlinkPacket i _ | sshFxpSymlinkPacket i _ _
  | sshFxpExtendedPacket i _ _ => i
  end.

(** Modelled from the spec: the interfaces the worker's type switch tests.
    [isOpener] holds of OPEN and OPENDIR (the two requests that create a
    handle), [getHandle] is defined on the requests whose input is a
    handle and [getPath] on those whose input is a path (section 4.4);
    EXTENDED has neither. *)
Definition isOpener (pkt : requestPacket) : bool :=
  match pkt with
  | sshFxpOpenPacket _ _ _ _ | sshFxpOpendirPacket _ _ => true
  | _ => false
  end.

Definition getHandle (pkt : requestPacket) : option string :=
  match pkt with
  | sshFxpClosePacket _ h | sshFxpReadPacket _ h _ _
  | sshFxpWritePacket _ h _ _ | sshFxpFstatPacket _ h
  | sshFxpFsetstatPacket _ h _ _ | sshFxpReaddirPacket _ h => Some h
  | _ => None
  end.

Definition getPath (pkt : requestPacket) : option string :=
  match pkt with
  | sshFxpOpenPacket _ p _ _ | sshFxpLstatPacket _ p
  | sshFxpSetstatPacket _ p _ _ | sshFxpOpendirPacket _ p
  | sshFxpRemovePacket _ p | sshFxpMkdirPacket _ p _
  | sshFxpRmdirPacket _ p | sshFxpRealpathPacket _ p
  | sshFxpStatPacket _ p | sshFxpRenamePacket _ p _
  | sshFxpReadlinkPacket _ p | sshFxpSymlinkPacket _ p _ => Some p
  | _ => None
  end.

Definition sftpProtocolVersion : Z := 3.

(** The text of an error, [err.Error()]. *)
Fixpoint Error (err : error) : string :=
  match err with
  | Errno e => "errno " ++ pretty e
  | PathError op path e => op ++ " " ++ path ++ ": " ++ Error e
  | EOF => "EOF"
  | errorString msg => msg
  end.

(** Modelled from the spec: [statusFromError] builds the status reply for
    a request id and an error (sections 6 and 7): no error is OK, end of
    file is EOF, an error carrying an errno is translated by
    [translateSyscallError], anything else is FAILURE, and the message
    text travels in the reply.  The Go function is declared elsewhere in
    the package. *)
Definition statusFromError (p : requestPacket) (err : option error)
    : responsePacket :=
  match err with
  | None => sshFxpStatusResponse (id p) sshFxOk ""
  | Some e =>
      let code :=
        match e with
        | EOF => sshFxEOF
        | _ => match translateSyscallError e with
               | (c, true) => c
               | (_, false) => sshFxFailure
               end
        end in
      sshFxpStatusResponse (id p) code (Error e)
  end.

Definition cleanPacketPath (pkt : requestPacket) : responsePacket :=
  let path := cleanPath (default "" (getPath pkt)) in
  sshFxpNamePacket (id pkt)
    [ mkNameAttr path path emptyFileStat ].

(** ** Requests and the handlers behind them *)

(** Modelled from the spec: a request carries a method name, a path, a
    target, flags and attrs (section 6, handler interface). *)
Record Request : Type := mkRequest {
  Method : string;
  Filepath : string;
  Flags : Z;
  ReqAttrs : list Byte.byte;
  Target : string
}.

(** The zero value [getRequest] hands back for a missing handle. *)
Definition zeroRequest : Request := mkRequest "" "" 0 [] "".

(** What the worker calls from the rest of the package: building a
    request from a packet, refreshing it from a handle-bearing packet,
    running it against the handlers and closing it.  [World] is whatever
    the handlers act on; [Request_close] may fail. *)
Class Backend : Type := mkBackend {
  World : Type;
  requestFromPacket : requestPacket -> Request;
  Request_update : Request -> requestPacket -> Request;
  Request_handle : Request -> World -> responsePacket * World;
  Request_close : Request -> World -> option error * World
}.

(** ** [request-server.go] *)

(** The server: the handle table and counter of the Go struct, the world
    of its handlers, and two histories that make the worker observable:
    the requests passed to [Request_handle] and the replies given to the
    packet manager, oldest first. *)
Record RequestServer `{Backend} : Type := mkRequestServer {
  openRequests : gmap string Request;
  handleCount : Z;
  world : World;
  handled : list Request;
  sent : list responsePacket
}.

(** Go's [int] is 64 bits wide on the 64-bit ports (32 on the others);
    [handleCount++] wraps around. *)
Definition intSize : Z := 64.

Definition wrapInt (z : Z) : Z :=
  (z + 2 ^ (intSize - 1)) mod 2 ^ intSize - 2 ^ (intSize - 1).

(** [strconv.Itoa]: the decimal digits, with a leading minus sign for a
    negative number. *)
Definition Itoa (i : Z) : string := pretty i.

Definition NewRequestServer `{Backend} (w : World) : RequestServer :=
  mkRequestServer _ ∅ 0 w [] [].

Definition nextRequest `{Backend} (rs : RequestServer) (r : Request)
    : RequestServer * string :=
  let handleCount' := wrapInt (handleCount rs + 1) in
  let handle := Itoa handleCount' in
  (mkRequestServer _ (<[handle := r]> (openRequests rs)) handleCount'
     (world rs) (handled rs) (sent rs),
   handle).

Definition getRequest `{Backend} (rs : RequestServer) (handle : string)
    : Request * bool :=
  match openRequests rs !! handle with
  | Some r => (r, true)
  | None => (zeroRequest, false)
  end.

Definition closeRequest `{Backend} (rs : RequestServer) (handle : string)
    : RequestServer :=
  match openRequests rs !! handle with
  | Some r =>
      let '(_, w) := Request_close r (world rs) in
      mkRequestServer _ (delete handle (openRequests rs)) (handleCount rs)
        w (handled rs) (sent rs)
  | None => rs
  end.

(** [request.handle(rs.Handlers)], recorded in [handled]. *)
Definition handleRequest `{Backend} (rs : RequestServer)
    (request : Request)
    : RequestServer * responsePacket :=
  let '(rpkt, w) := Request_handle request (world rs) in
  (mkRequestServer _ (openRequests rs) (handleCount rs) w
     (handled rs ++ [request]) (sent rs),
   rpkt).

(** [sendPacket]: a [responsePacket] always passes the type assertion and
    goes to the packet manager. *)
Definition sendPacket `{Backend} (rs : RequestServer) (m : responsePacket)
    : RequestServer * option error :=
  (mkRequestServer _ (openRequests rs) (handleCount rs) (world rs)
     (handled rs) (sent rs ++ [m]),
   None).

(** The type switch of [packetWorker]: the reply for one packet, or the
    error of the [default] case. *)
Definition dispatch `{Backend} (rs : RequestServer) (pkt : requestPacket)
    : RequestServer * (responsePacket + error) :=
  match pkt with
  | sshFxInitPacket _ =>
      (rs, inl (sshFxVersionPacket sftpProtocolVersion []))
  | sshFxpClosePacket _ handle =>
      let rs := closeRequest rs handle in
      (rs, inl (statusFromError pkt None))
  | sshFxpRealpathPacket _ _ => (rs, inl (cleanPacketPath pkt))
  | _ =>
      if isOpener pkt then
        let '(rs, handle) := nextRequest rs (requestFromPacket pkt) in
        (rs, inl (sshFxpHandlePacket (id pkt) handle))
      else
        match pkt with
        | sshFxpFstatPacket _ handle =>
            let '(request, ok) := getRequest rs handle in
            if negb ok then
              (rs, inl (statusFromError pkt (Some (Errno syscall.EBADF))))
            else
              let request := requestFromPacket
                (sshFxpStatPacket (id pkt) (Filepath request)) in
              let '(rs, rpkt) := handleRequest rs request in (rs, inl rpkt)
        | sshFxpFsetstatPacket _ handle flags attrs =>
            let '(request, ok) := getRequest rs handle in
            if negb ok then
              (rs, inl (statusFromError pkt (Some (Errno syscall.EBADF))))
            else
              let request := requestFromPacket
                (sshFxpSetstatPacket (id pkt) (Filepath request)
                   flags attrs) in
              let '(rs, rpkt) := handleRequest rs request in (rs, inl rpkt)
        | _ =>
            match getHandle pkt with
            | Some handle =>
                let '(request, ok) := getRequest rs handle in
                let request := Request_update request pkt in
                if negb ok then
                  (rs, inl (statusFromError pkt
                              (Some (Errno syscall.EBADF))))
                else
                  let '(rs, rpkt) := handleRequest rs request in (rs, inl rpkt)
            | None =>
                match getPath pkt with
                | Some _ =>
                    let request := requestFromPacket pkt in
                    let '(rs, rpkt) := handleRequest rs request in (rs, inl rpkt)
                | None =>
                    (rs, inr (errorString "unexpected packet type"))
                end
            end
        end
  end.

(** [packetWorker] over the packets the channel delivers before it is
    closed: the final server and the error that ended the loop, if any. *)
Fixpoint packetWorker `{Backend} (rs : RequestServer)
    (pktChan : list requestPacket) : RequestServer * option error :=
  match pktChan with
  | [] => (rs, None)
  | pkt :: pktChan' =>
      match dispatch rs pkt with
      | (rs, inl rpkt) =>
          match sendPacket rs rpkt with
          | (rs, None) => packetWorker rs pktChan'
          | (rs, Some err) => (rs, Some err)
          end
      | (rs, inr err) => (rs, Some err)
      end
  end.

(** ** Domains of the mode conversions *)

Definition supportedFileTypes : list Z :=
  [ 0; fs.ModeDir; fs.ModeSymlink; fs.ModeDevice;
    Z.lor fs.ModeDevice fs.ModeCharDevice; fs.ModeNamedPipe; fs.ModeSocket ].

Definition supportedIFMT : list Z :=
  [ syscall.S_IFREG; syscall.S_IFDIR; syscall.S_IFLNK; syscall.S_IFBLK;
    syscall.S_IFCHR; syscall.S_IFIFO; syscall.S_IFSOCK ].

Definition fileModeBits : Z :=
  Z.lor fs.ModePerm (Z.lor fs.ModeSetuid (Z.lor fs.ModeSetgid
    (Z.lor fs.ModeSticky fs.ModeType))).

Definition posixModeBits : Z :=
  Z.lor 0x1FF (Z.lor syscall.S_ISUID (Z.lor syscall.S_ISGID
    (Z.lor syscall.S_ISVTX S_IFMT))).

(** An [fs.FileMode] made of permission bits, setuid/setgid/sticky and
    one supported file type. *)
Definition validFileMode (m : Z) : bool :=
  (Z.land m fileModeBits =? m)
  && existsb (Z.eqb (Z.land m fs.ModeType)) supportedFileTypes.

(** A POSIX mode within [0777 | S_ISUID | S_ISGID | S_ISVTX | S_IFMT]
    whose [S_IFMT] field is a supported type. *)
Definition validPosixMode (m : Z) : bool :=
  (Z.land m posixModeBits =? m)
  && existsb (Z.eqb (Z.land m S_IFMT)) supportedIFMT.

(** The [n] integers from [start] on. *)
Fixpoint upto (n : nat) (start : Z) : list Z :=
  match n with
  | O => []
  | S n' => start :: upto n' (start + 1)
  end.

(** A file mode put together from its parts. *)
Definition composeFileMode (perm : Z) (setuid setgid sticky : bool)
    (type : Z) : Z :=
  Z.lor perm
    (Z.lor (if setuid then fs.ModeSetuid else 0)
       (Z.lor (if setgid then fs.ModeSetgid else 0)
          (Z.lor (if sticky then fs.ModeSticky else 0) type))).

(** ** Vocabulary of the path properties *)

(** A path is lexically clean when cleaning leaves it as it is. *)
Definition isClean (path : string) : bool := String.eqb (Clean path) path.

(** A path element other than [.] and [..]. *)
Definition realElement (c : list ascii) : Prop :=
  c <> [] /\ Forall (fun x => isPathSeparator x = false) c
  /\ c <> ["."%char] /\ c <> ["."%char; "."%char].

(** The bytes of [path] up to its first separator. *)
Fixpoint element (path : list ascii) : list ascii :=
  match path with
  | [] => []
  | c :: rest => if isPathSeparator c then [] else c :: element rest
  end.

(** The output buffer that holds the elements [done], newest first, on
    top of the bytes [pre]. *)
Fixpoint bufOf (rooted : bool) (pre : list ascii)
    (done : list (list ascii)) : list ascii :=
  match done with
  | [] => pre
  | c :: done' => rev c ++ addSlash rooted (bufOf rooted pre done')
  end.

(** What lies below the elements: the root of a rooted path, or the
    leading [..] elements of a relative one. *)
Definition dotdotForm (f : list ascii) : Prop :=
  f = [] \/ f = ["."%char; "."%char]
  \/ exists q, f = "."%char :: "."%char :: "/"%char :: q.

Definition baseOK (rooted : bool) (pre : list ascii) : Prop :=
  if rooted then pre = ["/"%char] else dotdotForm (rev pre).

(** The shape of the output buffer all along the loop. *)
Definition loopForm (rooted : bool) (out : list ascii) : Prop :=
  exists pre done,
    baseOK rooted pre /\ Forall realElement done
    /\ out = bufOf rooted pre done.

(** ** Vocabulary of the server properties *)

(** The handle of a request that bears one, CLOSE apart. *)
Definition bearsHandle (pkt : requestPacket) : option string :=
  match pkt with
  | sshFxpClosePacket _ _ => None
  | _ => getHandle pkt
  end.

(** The packets some case of the worker's type switch matches. *)
Definition matchesCase (pkt : requestPacket) : bool :=
  match pkt with
  | sshFxInitPacket _ => true
  | _ => bool_decide (is_Some (getHandle pkt))
         || bool_decide (is_Some (getPath pkt))
  end.

Definition isInit (pkt : requestPacket) : bool :=
  match pkt with
  | sshFxInitPacket _ => true
  | _ => false
  end.

(** The reply shape the type switch fixes by itself; [None] where the
    reply is whatever the handlers return. *)
Definition fixedShape `{Backend} (rs : RequestServer) (pkt : requestPacket)
    : option replyShape :=
  match pkt with
  | sshFxInitPacket _ => Some VERSION
  | sshFxpClosePacket _ _ => Some STATUS
  | sshFxpRealpathPacket _ _ => Some NAME
  | _ =>
      if isOpener pkt then Some HANDLE
      else match bearsHandle pkt with
           | Some h =>
               match openRequests rs !! h with
               | None => Some STATUS
               | Some _ => None
               end
           | None => None
           end
  end.

(** Every handle of the table is the decimal rendering of a counter
    value between 1 and the current one. *)
Definition tableInv `{Backend} (rs : RequestServer) : Prop :=
  forall h, is_Some (openRequests rs !! h) ->
            exists k, 1 <= k <= handleCount rs /\ h = Itoa k.

(** After [n] allocations the counter is [n] wrapped around, and every
    handle of the table is the rendering of the counter at one of them. *)
Definition issuedInv `{Backend} (rs : RequestServer) (n : Z) : Prop :=
  handleCount rs = wrapInt n
  /\ forall h, is_Some (openRequests rs !! h) ->
               exists k, 1 <= k <= n /\ h = Itoa (wrapInt k).

(** The number of OPEN and OPENDIR packets among [pkts]. *)
Fixpoint openerCount (pkts : list requestPacket) : Z :=
  match pkts with
  | [] => 0
  | pkt :: pkts' => (if isOpener pkt then 1 else 0) + openerCount pkts'
  end.

(** [n] further allocations of a handle for [r]. *)
Definition allocations `{Backend} (n : N) (r : Request)
    (rs : RequestServer) : RequestServer :=
  N.iter n (fun rs => fst (nextRequest rs r)) rs.

Definition demoMethod (pkt : requestPacket) : string :=
  match pkt with
  | sshFxpOpenPacket _ _ _ _ => "Open"
  | sshFxpOpendirPacket _ _ => "List"
  | sshFxpReadPacket _ _ _ _ => "Get"
  | sshFxpWritePacket _ _ _ _ => "Put"
  | sshFxpStatPacket _ _ => "Stat"
  | sshFxpSetstatPacket _ _ _ _ => "Setstat"
  | _ => ""
  end.

Definition demoRequestFromPacket (pkt : requestPacket) : Request :=
  match pkt with
  | sshFxpSetstatPacket _ p flags attrs =>
      mkRequest (demoMethod pkt) (cleanPath p) flags attrs ""
  | _ =>
      mkRequest (demoMethod pkt) (cleanPath (default "" (getPath pkt)))
        0 [] ""
  end.

(** A backend for concrete runs.  Its world is the list of the paths
    closed so far; every handler call answers an empty attrs reply and
    every close fails with EIO. *)
Definition demoBackend : Backend :=
  mkBackend (list string)
    demoRequestFromPacket
    (fun r pkt =>
       mkRequest (demoMethod pkt) (Filepath r) (Flags r) (ReqAttrs r)
         (Target r))
    (fun r w => (sshFxpStatResponse 0 emptyFileStat, w))
    (fun r w => (Some (Errno syscall.EIO), Filepath r :: w)).

(** A server of [demoBackend] after one OPEN of ["/tmp/x"], which holds
    that file under handle ["1"]. *)
Definition demoServer : @RequestServer demoBackend :=
  fst (@packetWorker demoBackend (@NewRequestServer demoBackend [])
         [sshFxpOpenPacket 1 "/tmp/x" 1 0]).

(** [demoServer] after [2 ^ intSize - 1] more opens of ["/tmp/x"], none
    of them closed: the counter has gone round and stands at 0. *)
Definition wrappedServer : @RequestServer demoBackend :=
  @allocations demoBackend (Z.to_N (2 ^ intSize - 1))
    (mkRequest "Open" "/tmp/x" 0 [] "") demoServer.

(** ** Vocabulary of the further mode properties *)

Definition hasSupportedIFMT (m : Z) : bool :=
  existsb (Z.eqb (Z.land m S_IFMT)) supportedIFMT.

Definition hasSupportedFileType (fm : Z) : bool :=
  existsb (Z.eqb (Z.land fm fs.ModeType)) supportedFileTypes.

(** The bits of a file mode that are not type bits: permissions, setuid,
    setgid and sticky. *)
Definition fileModeFlags : Z :=
  Z.lor fs.ModePerm (Z.lor fs.ModeSetuid (Z.lor fs.ModeSetgid fs.ModeSticky)).

(** The single bits [fromFileMode] looks at above the permissions. *)
Definition fileModeHighBits : list Z :=
  [ fs.ModeIrregular; fs.ModeSticky; fs.ModeCharDevice; fs.ModeSetgid;
    fs.ModeSetuid; fs.ModeSocket; fs.ModeNamedPipe; fs.ModeDevice;
    fs.ModeSymlink; fs.ModeDir ].

Fixpoint orBits (bs : list bool) (masks : list Z) : Z :=
  match bs, masks with
  | b :: bs', m :: masks' => Z.lor (if b then m else 0) (orBits bs' masks')
  | _, _ => 0
  end.

Fixpoint allBools (n : nat) : list (list bool) :=
  match n with
  | O => [[]]
  | S n' => flat_map (fun bs => [true :: bs; false :: bs]) (allBools n')
  end.

(** The bits of a file mode above the permissions that [fromFileMode]
    looks at, in one mask. *)
Definition fileModeHigh : Z := orBits (repeat true 10) fileModeHighBits.

(** What [fromFileMode] and [toFileMode] do to a file mode without
    permission bits: the result of [fromFileMode] lies in [0xFE00], it has
    a supported [S_IFMT] type when the file type is supported and an
    empty [S_IFMT] field otherwise, and going back keeps the special bits
    and a supported type. *)
Definition fileModeHighCheck (h : Z) : bool :=
  (Z.land (fromFileMode h) 0xFE00 =? fromFileMode h)
  && (if hasSupportedFileType h
      then hasSupportedIFMT (fromFileMode h)
      else Z.land (fromFileMode h) S_IFMT =? 0)
  && (toFileMode (fromFileMode h)
      =? Z.lor (Z.land h fileModeFlags)
           (if hasSupportedFileType h then Z.land h fs.ModeType else 0)).

(** ** Vocabulary of the further server and path properties *)

(** The packets the worker serves: those before the first one that no
    case of its type switch matches. *)
Fixpoint servedPrefix (pkts : list requestPacket) : list requestPacket :=
  match pkts with
  | [] => []
  | pkt :: pkts' => if matchesCase pkt then pkt :: servedPrefix pkts' else []
  end.

(** A CLOSE of the handle [h]. *)
Definition closesHandle (h : string) (pkt : requestPacket) : bool :=
  match pkt with
  | sshFxpClosePacket _ h' => String.eqb h h'
  | _ => false
  end.

(** The request id a reply carries; VERSION has none. *)
Definition replyID (rpkt : responsePacket) : option Z :=
  match rpkt with
  | sshFxVersionPacket _ _ => None
  | sshFxpStatusResponse i _ _ | sshFxpHandlePacket i _
  | sshFxpDataPacket i _ | sshFxpNamePacket i _
  | sshFxpStatResponse i _ | sshFxpExtendedReply i _ => Some i
  end.

(** Path elements, first one first, joined by single separators. *)
Fixpoint joinElements (els : list (list ascii)) : list ascii :=
  match els with
  | [] => []
  | [c] => c
  | c :: els' => c ++ "/"%char :: joinElements els'
  end.

(** [Clean] on the cleaning table of Go's own tests. *)
Example Clean_samples :
  map Clean
    [ "abc"; "abc/def"; "a/b/c"; "."; ".."; "../.."; "../../abc"; "/abc";
      "/"; ""; "abc/"; "abc/def/"; "a/b/c/"; "./"; "../"; "../../"; "/abc/";
      "abc//def//ghi"; "//abc"; "///abc"; "//abc//"; "abc//"; "abc/./def";
      "/./abc/def"; "abc/."; "abc/def/ghi/../jkl"; "abc/def/../ghi/../jkl";
      "abc/def/.."; "abc/def/../.."; "/abc/def/../.."; "abc/def/../../..";
      "/abc/def/../../.."; "abc/def/../../../ghi/jkl/../../../mno";
      "/../abc"; "abc/./../def"; "abc//./../def"; "abc/../../././../def" ]
  = [ "abc"; "abc/def"; "a/b/c"; "."; ".."; "../.."; "../../abc"; "/abc";
      "/"; "."; "abc"; "abc/def"; "a/b/c"; "."; ".."; "../.."; "/abc";
      "abc/def/ghi"; "/abc"; "/abc"; "/abc"; "abc"; "abc/def"; "/abc/def";
      "abc"; "abc/def/jkl"; "abc/jkl"; "abc"; "."; "/"; ".."; "/";
      "../../mno"; "/abc"; "def"; "def"; "../../def" ]%string.
Proof. vm_compute. reflexivity. Qed.

Example cleanPath_samples :
  map cleanPath [ "/"; "/a/b/../c/"; "a/"; "//"; ""; "."; "../a" ]
  = [ "/"; "/a/c"; "/a"; "/"; "/."; "/."; "/../a" ]%string.
Proof. vm_compute. reflexivity. Qed.

(** * Properties *)

(** ** Errno translation *)

Lemma translateErrno_EBADF : translateErrno syscall.EBADF = sshFxFailure.
Proof. reflexivity. Qed.

(** The POSIX translation: OK for errno 0, NO_SUCH_FILE for ENOENT,
    PERMISSION_DENIED for EACCES and EPERM and FAILURE for every other
    errno, also when the errno comes wrapped in a path error. *)
Lemma translateErrno_posix_cases (e : Z) (op path : string) :
  ((e = 0 -> translateErrno e = sshFxOk)
   /\ (e = syscall.ENOENT -> translateErrno e = sshFxNoSuchFile)
   /\ (e = syscall.EACCES \/ e = syscall.EPERM ->
       translateErrno e = sshFxPermissionDenied)
   /\ (e <> 0 -> e <> syscall.ENOENT -> e <> syscall.EACCES ->
       e <> syscall.EPERM -> translateErrno e = sshFxFailure))
  /\ translateSyscallError (Errno e) = (translateErrno e, true)
  /\ translateSyscallError (PathError op path (Errno e))
     = (translateErrno e, true)
  /\ (sshFxOk, sshFxNoSuchFile, sshFxPermissionDenied, sshFxFailure)
     = (0, 2, 3, 4).
Proof.
  split; [|split; [reflexivity|split; reflexivity]].
  unfold translateErrno.
  repeat split; intros.
  - subst e. reflexivity.
  - subst e. reflexivity.
  - destruct H as [-> | ->]; reflexivity.
  - destruct (Z.eqb_spec e 0); [contradiction|].
    destruct (Z.eqb_spec e syscall.ENOENT); [contradiction|].
    destruct (Z.eqb_spec e syscall.EACCES); [contradiction|].
    destruct (Z.eqb_spec e syscall.EPERM); [contradiction|].
    reflexivity.
Qed.

(** C7.  The Plan 9 translation misses EACCES: its permission case
    lists EPERM alone, so the error string of EACCES is translated to
    FAILURE (4), where the POSIX translation of EACCES, and the Plan 9
    translation of EPERM, give PERMISSION_DENIED (3). *)
Lemma translateErrno_plan9_EACCES :
  plan9.translateErrno plan9.EACCES = sshFxFailure
  /\ plan9.translateErrno plan9.EACCES <> sshFxPermissionDenied
  /\ translateErrno syscall.EACCES = sshFxPermissionDenied
  /\ plan9.translateErrno plan9.EPERM = sshFxPermissionDenied
  /\ (sshFxPermissionDenied, sshFxFailure) = (3, 4).
Proof. repeat split. discriminate. Qed.

(** ** File mode conversion *)

Lemma In_upto (n : nat) (start m : Z) :
  start <= m < start + Z.of_nat n -> In m (upto n start).
Proof.
  revert start. induction n as [|n IH]; intros start Hm; [lia|].
  simpl. destruct (Z.eq_dec start m) as [->|Hne]; [now left|].
  right. apply IH. lia.
Qed.

Lemma forallb_range (P : Z -> bool) (n : Z) :
  forallb P (upto (Z.to_nat n) 0) = true ->
  forall m, 0 <= m < n -> P m = true.
Proof.
  intros Hall m Hm.
  rewrite forallb_forall in Hall. apply Hall.
  apply In_upto. lia.
Qed.

Lemma land_bit_cases (m k : Z) :
  0 <= k -> Z.land m (Z.shiftl 1 k) = 0 \/ Z.land m (Z.shiftl 1 k) = Z.shiftl 1 k.
Proof.
  intros Hk. rewrite Z.shiftl_1_l.
  destruct (Z.testbit m k) eqn:Hb; [right | left];
    apply Z.bits_inj'; intros n Hn;
    rewrite Z.land_spec, ?Z.bits_0, Z.pow2_bits_eqb by lia;
    destruct (Z.eqb_spec k n) as [<- | _];
    rewrite ?Hb, ?andb_false_r; reflexivity.
Qed.

Lemma existsb_eqb_In (x : Z) (l : list Z) :
  existsb (Z.eqb x) l = true -> In x l.
Proof.
  rewrite existsb_exists. intros (y & Hy & Heq).
  apply Z.eqb_eq in Heq. now subst.
Qed.

Definition composeRoundtrip (type : Z) (p : Z) : bool :=
  forallb (fun su => forallb (fun sg => forallb (fun st =>
    let m := composeFileMode p su sg st type in
    toFileMode (fromFileMode m) =? m) [true; false]) [true; false])
    [true; false].

Lemma composeFileMode_roundtrip (p : Z) (su sg st : bool) (t : Z) :
  0 <= p < 512 -> In t supportedFileTypes ->
  toFileMode (fromFileMode (composeFileMode p su sg st t))
  = composeFileMode p su sg st t.
Proof.
  intros Hp Ht.
  assert (Hall : forallb (fun t => forallb (composeRoundtrip t)
                   (upto (Z.to_nat 512) 0)) supportedFileTypes = true)
    by (vm_compute; reflexivity).
  rewrite forallb_forall in Hall. specialize (Hall t Ht).
  pose proof (forallb_range _ _ Hall p Hp) as H.
  assert (Hb : forall b : bool, In b [true; false])
    by (intros []; simpl; auto).
  unfold composeRoundtrip in H.
  rewrite forallb_forall in H. specialize (H su (Hb su)).
  rewrite forallb_forall in H. specialize (H sg (Hb sg)).
  rewrite forallb_forall in H. specialize (H st (Hb st)).
  apply Z.eqb_eq. exact H.
Qed.

Lemma validFileMode_compose (m : Z) :
  validFileMode m = true ->
  exists p su sg st t,
    0 <= p < 512 /\ In t supportedFileTypes
    /\ m = composeFileMode p su sg st t.
Proof.
  unfold validFileMode. intros H. apply andb_prop in H as [Hm Ht].
  apply Z.eqb_eq in Hm. apply existsb_eqb_In in Ht.
  unfold fileModeBits in Hm. rewrite !Z.land_lor_distr_r in Hm.
  exists (Z.land m fs.ModePerm).
  assert (Hbit : forall k, 0 <= k ->
            exists b : bool, Z.land m (Z.shiftl 1 k)
                             = if b then Z.shiftl 1 k else 0).
  { intros k Hk. destruct (land_bit_cases m k Hk) as [H0 | H1];
      [exists false | exists true]; assumption. }
  destruct (Hbit 23 ltac:(lia)) as [su Hsu].
  destruct (Hbit 22 ltac:(lia)) as [sg Hsg].
  destruct (Hbit 20 ltac:(lia)) as [st Hst].
  exists su, sg, st, (Z.land m fs.ModeType).
  split; [|split; [assumption|]].
  - change fs.ModePerm with (Z.ones 9). rewrite Z.land_ones by lia.
    pose proof (Z.mod_pos_bound m (2 ^ 9) ltac:(lia)). lia.
  - unfold composeFileMode.
    change fs.ModeSetuid with (Z.shiftl 1 23) in *.
    change fs.ModeSetgid with (Z.shiftl 1 22) in *.
    change fs.ModeSticky with (Z.shiftl 1 20) in *.
    rewrite <- Hsu, <- Hsg, <- Hst. symmetry. exact Hm.
Qed.

(** C8.  [toFileMode] and [fromFileMode] are mutually inverse on their
    valid domains: [toFileMode (fromFileMode m) = m] for every file mode
    built from permission bits, setuid/setgid/sticky and one supported
    file type, and [fromFileMode (toFileMode m) = m] for every POSIX mode
    within [0777 | S_ISUID | S_ISGID | S_ISVTX | S_IFMT] with a supported
    [S_IFMT] type. *)
Theorem fileMode_roundtrip (m : Z) :
  (validFileMode m = true -> toFileMode (fromFileMode m) = m)
  /\ (validPosixMode m = true -> fromFileMode (toFileMode m) = m).
Proof.
  split; intros Hv.
  - destruct (validFileMode_compose m Hv)
      as (p & su & sg & st & t & Hp & Ht & ->).
    apply composeFileMode_roundtrip; assumption.
  - assert (Hall : forallb (fun m => implb (validPosixMode m)
                                 (fromFileMode (toFileMode m) =? m))
                     (upto (Z.to_nat 65536) 0) = true)
      by (vm_compute; reflexivity).
    assert (Hm : 0 <= m < 65536).
    { unfold validPosixMode in Hv. apply andb_prop in Hv as [Hm _].
      apply Z.eqb_eq in Hm. rewrite <- Hm.
      change posixModeBits with (Z.ones 16). rewrite Z.land_ones by lia.
      pose proof (Z.mod_pos_bound m (2 ^ 16) ltac:(lia)). lia. }
    pose proof (forallb_range _ _ Hall m Hm) as H. simpl in H.
    rewrite Hv in H. simpl in H. apply Z.eqb_eq. exact H.
Qed.

Lemma fileMode_roundtrip_witness :
  validFileMode (Z.lor fs.ModeDir (Z.lor fs.ModeSetgid 0x1ED)) = true
  /\ toFileMode (fromFileMode (Z.lor fs.ModeDir (Z.lor fs.ModeSetgid 0x1ED)))
     = Z.lor fs.ModeDir (Z.lor fs.ModeSetgid 0x1ED)
  /\ validPosixMode 0x81A4 = true
  /\ fromFileMode (toFileMode 0x81A4) = 0x81A4.
Proof.
  split; [reflexivity|]. split.
  - apply (proj1 (fileMode_roundtrip _)). reflexivity.
  - split; [reflexivity|].
    apply (proj2 (fileMode_roundtrip _)). reflexivity.
Defined.

(** ** Path cleaning *)

Lemma isDot_eq (c : ascii) : isDot c = true -> c = "."%char.
Proof. apply Ascii.eqb_eq. Qed.

Lemma isPathSeparator_eq (c : ascii) :
  isPathSeparator c = true -> c = "/"%char.
Proof. apply Ascii.eqb_eq. Qed.

Lemma length_addSlash (rooted : bool) (out : list ascii) :
  (length out <= length (addSlash rooted out))%nat.
Proof. unfold addSlash. destruct (_ || _); simpl; lia. Qed.

Lemma length_bufOf (rooted : bool) (pre : list ascii)
    (done : list (list ascii)) :
  (length pre <= length (bufOf rooted pre done))%nat.
Proof.
  induction done as [|c done IH]; simpl; [lia|].
  rewrite length_app.
  pose proof (length_addSlash rooted (bufOf rooted pre done)). lia.
Qed.

Lemma length_bufOf_cons (rooted : bool) (pre c : list ascii)
    (done : list (list ascii)) :
  c <> [] -> (length pre < length (bufOf rooted pre (c :: done)))%nat.
Proof.
  intros Hc. simpl. rewrite length_app, length_rev.
  pose proof (length_addSlash rooted (bufOf rooted pre done)).
  pose proof (length_bufOf rooted pre done).
  destruct c; [contradiction|]. simpl. lia.
Qed.

Lemma addSlash_cases (rooted : bool) (pre : list ascii)
    (done : list (list ascii)) :
  baseOK rooted pre ->
  addSlash rooted (bufOf rooted pre done)
  = "/"%char :: bufOf rooted pre done
  \/ (addSlash rooted (bufOf rooted pre done) = bufOf rooted pre done
      /\ length (bufOf rooted pre done) = length pre).
Proof.
  intros Hbase. pose proof (length_bufOf rooted pre done) as Hlen.
  unfold addSlash. destruct rooted; simpl in *.
  - subst pre. simpl in *.
    destruct (Nat.eqb_spec (length (bufOf true ["/"%char] done)) 1);
      simpl; [right | left]; auto.
  - destruct (Nat.eqb_spec (length (bufOf false pre done)) 0);
      simpl; [right | left]; auto. split; [reflexivity | lia].
Qed.

Lemma backtrack_sep (dotdot : nat) (l out : list ascii) :
  Forall (fun x => isPathSeparator x = false) l ->
  (dotdot <= length out)%nat ->
  backtrack dotdot (l ++ "/"%char :: out) = out.
Proof.
  intros Hl Hd. induction Hl as [|x l Hx Hl IH]; simpl.
  - rewrite andb_false_r. reflexivity.
  - rewrite Hx, length_app. simpl.
    destruct (Nat.ltb_spec dotdot (length l + S (length out))); [|lia].
    simpl. exact IH.
Qed.

Lemma backtrack_nosep (dotdot : nat) (l out : list ascii) :
  l <> [] ->
  Forall (fun x => isPathSeparator x = false) l ->
  length out = dotdot ->
  backtrack dotdot (l ++ out) = out.
Proof.
  intros Hne Hl Hd. induction Hl as [|x l Hx Hl IH]; [contradiction|].
  simpl. rewrite Hx, length_app. destruct l as [|y l].
  - simpl. destruct (Nat.ltb_spec dotdot (length out)); [lia|]. reflexivity.
  - destruct (Nat.ltb_spec dotdot (length (y :: l) + length out));
      [|simpl in *; lia].
    simpl. apply IH. discriminate.
Qed.

Lemma Forall_rev_nonsep (c : list ascii) :
  Forall (fun x => isPathSeparator x = false) c ->
  Forall (fun x => isPathSeparator x = false) (rev c).
Proof.
  intros H. apply List.Forall_rev. exact H.
Qed.

Lemma backtrack_bufOf (rooted : bool) (pre c : list ascii)
    (done : list (list ascii)) :
  baseOK rooted pre -> c <> [] ->
  Forall (fun x => isPathSeparator x = false) c ->
  backtrack (length pre) (bufOf rooted pre (c :: done))
  = bufOf rooted pre done.
Proof.
  intros Hbase Hc Hns. simpl.
  destruct (addSlash_cases rooted pre done Hbase) as [-> | [-> Hlen]].
  - apply backtrack_sep; [apply Forall_rev_nonsep, Hns|].
    apply length_bufOf.
  - apply backtrack_nosep; [|apply Forall_rev_nonsep, Hns | exact Hlen].
    intros Hrev. apply Hc. apply (f_equal (@rev ascii)) in Hrev.
    rewrite rev_involutive in Hrev. exact Hrev.
Qed.

Lemma element_nonsep (path : list ascii) :
  Forall (fun x => isPathSeparator x = false) (element path).
Proof.
  induction path as [|c rest IH]; simpl; [constructor|].
  destruct (isPathSeparator c) eqn:Hc; constructor; assumption.
Qed.

Lemma element_nil (path : list ascii) :
  element path = [] -> atElementEnd path = true.
Proof.
  destruct path as [|c rest]; simpl; [reflexivity|].
  destruct (isPathSeparator c); [reflexivity | discriminate].
Qed.

Lemma element_atEnd (path : list ascii) :
  atElementEnd path = true -> element path = [].
Proof.
  destruct path as [|c rest]; simpl; [reflexivity|].
  intros ->. reflexivity.
Qed.

Lemma realElement_single (x : ascii) :
  isPathSeparator x = false -> isDot x = false -> realElement [x].
Proof.
  intros Hx Hd. repeat split.
  - discriminate.
  - constructor; [exact Hx | constructor].
  - intros [= ->]. discriminate Hd.
  - discriminate.
Qed.

Lemma realElement_start (x c1 : ascii) (rest2 : list ascii) :
  isPathSeparator x = false ->
  isDot x && atElementEnd (c1 :: rest2) = false ->
  isDot x && isDot c1 && atElementEnd rest2 = false ->
  realElement ([x] ++ element (c1 :: rest2)).
Proof.
  intros Hx Hdot Hdd. repeat split.
  - discriminate.
  - constructor; [exact Hx | apply element_nonsep].
  - simpl. intros [= -> He]. simpl in Hdot.
    destruct (isPathSeparator c1); discriminate.
  - simpl. intros [= -> He]. simpl in Hdot, Hdd.
    destruct (isPathSeparator c1) eqn:Hc1; [discriminate|].
    injection He as -> He. apply element_nil in He.
    rewrite He in Hdd. discriminate.
Qed.

Lemma baseOK_dotdot (pre : list ascii) :
  baseOK false pre ->
  baseOK false
    ("."%char :: "."%char
       :: (if (0 <? length pre)%nat then "/"%char :: pre else pre)).
Proof.
  unfold baseOK. intros Hpre.
  destruct pre as [|a pre]; [simpl; right; left; reflexivity|].
  cbn [length Nat.ltb Nat.leb].
  assert (E : rev ("."%char :: "."%char :: "/"%char :: a :: pre)
              = rev (a :: pre) ++ ["/"%char; "."%char; "."%char])
    by (simpl; rewrite <- !app_assoc; reflexivity).
  unfold baseOK in *. rewrite E. clear E.
  destruct Hpre as [H | [H | (q & H)]]; rewrite H.
  - apply (f_equal (@length ascii)) in H.
    rewrite length_rev in H. discriminate H.
  - right; right. eexists. reflexivity.
  - right; right. eexists. reflexivity.
Qed.

Lemma cleanLoop_form (n : nat) :
  forall path, (length path <= n)%nat ->
  forall rooted pre done,
  baseOK rooted pre -> Forall realElement done ->
  loopForm rooted
    (cleanLoop rooted false path (bufOf rooted pre done) (length pre))
  /\ (forall partial,
        partial <> [] -> realElement (partial ++ element path) ->
        loopForm rooted
          (cleanLoop rooted true path
             (bufOf rooted pre (partial :: done)) (length pre))).
Proof.
  induction n as [|n IH]; intros path Hlen rooted pre done Hbase Hdone.
  - destruct path; [|simpl in Hlen; lia]. split.
    + exists pre, done. auto.
    + intros partial Hne Hreal. simpl in Hreal. rewrite app_nil_r in Hreal.
      exists pre, (partial :: done). auto.
  - destruct path as [|x rest].
    { split.
      + exists pre, done. auto.
      + intros partial Hne Hreal. simpl in Hreal.
        rewrite app_nil_r in Hreal.
        exists pre, (partial :: done). auto. }
    simpl in Hlen. assert (Hrest : (length rest <= n)%nat) by lia.
    destruct (isPathSeparator x) eqn:Hx.
    + split.
      * cbn [cleanLoop]. rewrite Hx. apply (IH rest Hrest); assumption.
      * intros partial Hne Hreal. cbn [cleanLoop]. rewrite Hx.
        simpl in Hreal. rewrite Hx, app_nil_r in Hreal.
        apply (IH rest Hrest rooted pre (partial :: done)); auto.
    + split.
      * cbn [cleanLoop]. rewrite Hx.
        destruct (isDot x && atElementEnd rest) eqn:Hdot.
        { apply (IH rest Hrest); assumption. }
        destruct rest as [|c1 rest2].
        { exists pre, ([x] :: done). split; [assumption|].
          split; [|reflexivity]. constructor; [|assumption].
          apply realElement_single; [assumption|].
          simpl in Hdot. rewrite andb_true_r in Hdot. exact Hdot. }
        destruct (isDot x && isDot c1 && atElementEnd rest2) eqn:Hdd.
        { assert (Hrest2 : (length rest2 <= n)%nat) by (simpl in Hrest; lia).
          destruct (Nat.ltb_spec (length pre)
                      (length (bufOf rooted pre done))) as [Hlt | Hge].
          - destruct done as [|c done']; [simpl in Hlt; lia|].
            inversion Hdone as [|? ? Hc Hdone']; subst.
            destruct Hc as (Hcne & Hcns & _).
            rewrite (backtrack_bufOf rooted pre c done' Hbase Hcne Hcns).
            apply (IH rest2 Hrest2); assumption.
          - assert (Hnil : done = []).
            { destruct done as [|c done']; [reflexivity|].
              inversion Hdone as [|? ? Hc _]; subst.
              destruct Hc as (Hcne & _).
              pose proof (length_bufOf_cons rooted pre c done' Hcne). lia. }
            subst done. cbn [bufOf]. destruct rooted; cbn [negb].
            + apply (IH rest2 Hrest2 true pre []); assumption.
            + cbv zeta.
              apply (IH rest2 Hrest2 false
                       ("."%char :: "."%char
                          :: (if (0 <? length pre)%nat
                              then "/"%char :: pre else pre)) []);
                [apply baseOK_dotdot; assumption | constructor]. }
        apply (proj2 (IH (c1 :: rest2) Hrest rooted pre done Hbase Hdone)
                 [x]); [discriminate|].
        apply realElement_start; assumption.
      * intros partial Hne Hreal. cbn [cleanLoop]. rewrite Hx.
        replace (x :: bufOf rooted pre (partial :: done))
          with (bufOf rooted pre ((partial ++ [x]) :: done))
          by (simpl; rewrite rev_unit; reflexivity).
        apply (proj2 (IH rest Hrest rooted pre done Hbase Hdone)).
        -- destruct partial; discriminate.
        -- simpl in Hreal. rewrite Hx in Hreal.
           rewrite <- app_assoc. exact Hreal.
Qed.

Lemma cleanLoop_copy (rooted : bool) (c r out : list ascii) (dotdot : nat) :
  Forall (fun x => isPathSeparator x = false) c ->
  cleanLoop rooted true (c ++ r) out dotdot
  = cleanLoop rooted true r (rev c ++ out) dotdot.
Proof.
  intros Hc. revert out. induction Hc as [|x c Hx Hc IH]; intros out.
  - reflexivity.
  - cbn [app cleanLoop]. rewrite Hx, IH. simpl.
    rewrite <- app_assoc. reflexivity.
Qed.

Lemma cleanLoop_atEnd (rooted : bool) (r out : list ascii) (dotdot : nat) :
  atElementEnd r = true ->
  cleanLoop rooted true r out dotdot = cleanLoop rooted false r out dotdot.
Proof.
  destruct r as [|s r]; simpl; [reflexivity|]. intros ->. reflexivity.
Qed.

Lemma element_app (c r : list ascii) :
  Forall (fun x => isPathSeparator x = false) c ->
  atElementEnd r = true -> element (c ++ r) = c.
Proof.
  intros Hc Hr. induction Hc as [|x c Hx Hc IH]; simpl.
  - apply element_atEnd, Hr.
  - rewrite Hx, IH. reflexivity.
Qed.

Lemma cleanLoop_start (rooted : bool) (x : ascii) (rest out : list ascii)
    (dotdot : nat) :
  isPathSeparator x = false ->
  realElement (x :: element rest) ->
  cleanLoop rooted false (x :: rest) out dotdot
  = cleanLoop rooted true rest (x :: addSlash rooted out) dotdot.
Proof.
  intros Hx (_ & _ & Hdot & Hdd).
  cbn [cleanLoop]. rewrite Hx.
  assert (H1 : isDot x && atElementEnd rest = false).
  { destruct (isDot x) eqn:Hdx; [|reflexivity].
    destruct (atElementEnd rest) eqn:He; [|reflexivity].
    exfalso. apply Hdot. apply isDot_eq in Hdx. subst x.
    rewrite (element_atEnd rest He). reflexivity. }
  rewrite H1. destruct rest as [|c1 rest2]; [reflexivity|].
  assert (H2 : isDot x && isDot c1 && atElementEnd rest2 = false).
  { destruct (isDot x) eqn:Hdx; [|reflexivity].
    destruct (isDot c1) eqn:Hdc; [|reflexivity].
    destruct (atElementEnd rest2) eqn:He; [|reflexivity].
    exfalso. apply Hdd. apply isDot_eq in Hdx, Hdc. subst x c1.
    simpl. rewrite (element_atEnd rest2 He). reflexivity. }
  rewrite H2. reflexivity.
Qed.

Lemma cleanLoop_element (rooted : bool) (c r out : list ascii)
    (dotdot : nat) :
  realElement c -> atElementEnd r = true ->
  cleanLoop rooted false (c ++ r) out dotdot
  = cleanLoop rooted false r (rev c ++ addSlash rooted out) dotdot.
Proof.
  intros Hreal Hr. pose proof Hreal as (Hne & Hns & _).
  destruct c as [|x c']; [contradiction|].
  inversion Hns as [|? ? Hx Hns']; subst.
  cbn [app]. rewrite cleanLoop_start; [|exact Hx|].
  - rewrite cleanLoop_copy by exact Hns'.
    rewrite cleanLoop_atEnd by exact Hr.
    simpl. rewrite <- app_assoc. reflexivity.
  - rewrite element_app by assumption. exact Hreal.
Qed.

(** The rooted buffers are the paths ["/" e1 "/" e2 ...]. *)
Lemma rev_bufOf_rooted_head (done : list (list ascii)) :
  exists body, rev (bufOf true ["/"%char] done) = "/"%char :: body.
Proof.
  induction done as [|c done (body & IH)]; [exists []; reflexivity|].
  cbn [bufOf]. rewrite rev_app_distr, rev_involutive.
  unfold addSlash. destruct (_ || _).
  - cbn [rev]. rewrite IH. eexists. reflexivity.
  - rewrite IH. eexists. reflexivity.
Qed.

Lemma cleanLoop_rendered (done : list (list ascii)) :
  Forall realElement done ->
  forall r, atElementEnd r = true ->
  cleanLoop true false (rev (bufOf true ["/"%char] done) ++ r)
    ["/"%char] 1
  = cleanLoop true false r (bufOf true ["/"%char] done) 1.
Proof.
  intros Hdone. induction Hdone as [|c done Hc Hdone IH]; intros r Hr.
  - reflexivity.
  - cbn [bufOf]. rewrite rev_app_distr, rev_involutive, <- app_assoc.
    destruct (addSlash_cases true ["/"%char] done eq_refl)
      as [Hs | [Hs Hlen]]; rewrite Hs.
    + cbn [rev]. rewrite <- app_assoc. cbn [app].
      rewrite IH by reflexivity.
      cbn [cleanLoop isPathSeparator Ascii.eqb].
      change (Ascii.eqb "/" "/") with true. cbn iota.
      rewrite (cleanLoop_element true c r) by assumption.
      rewrite Hs. reflexivity.
    + assert (Hnil : done = []).
      { destruct done as [|c' done']; [reflexivity|].
        inversion Hdone as [|? ? Hc' _]; subst.
        destruct Hc' as (Hne & _).
        pose proof (length_bufOf_cons true ["/"%char] c' done' Hne).
        simpl in *. lia. }
      subst done. cbn [bufOf rev app].
      cbn [cleanLoop isPathSeparator]. change (Ascii.eqb "/" "/") with true.
      cbn iota.
      rewrite (cleanLoop_element true c r) by assumption. reflexivity.
Qed.

Lemma rev_bufOf_relative (done : list (list ascii)) :
  rev (bufOf true ["/"%char] done) = "/"%char :: rev (bufOf false [] done).
Proof.
  induction done as [|c done IH]; [reflexivity|].
  cbn [bufOf]. rewrite !rev_app_distr, !rev_involutive.
  assert (Hlen : length (bufOf true ["/"%char] done)
                 = S (length (bufOf false [] done))).
  { rewrite <- (length_rev (bufOf true _ _)), IH. simpl.
    rewrite length_rev. reflexivity. }
  unfold addSlash. rewrite Hlen. cbn [andb negb orb].
  change (S (length (bufOf false [] done)) =? 1)%nat
    with (length (bufOf false [] done) =? 0)%nat.
  destruct (length (bufOf false [] done) =? 0)%nat; cbn [negb orb andb].
  - rewrite IH. reflexivity.
  - cbn [rev]. rewrite IH. reflexivity.
Qed.

Lemma rev_bufOf_relative_head (done : list (list ascii)) :
  Forall realElement done -> done <> [] ->
  exists x body,
    rev (bufOf false [] done) = x :: body /\ isPathSeparator x = false.
Proof.
  intros Hdone. induction Hdone as [|c done Hc Hdone IH]; [contradiction|].
  intros _. cbn [bufOf]. rewrite rev_app_distr, rev_involutive.
  destruct done as [|c' done'].
  - cbn [bufOf addSlash length Nat.eqb andb negb orb rev app].
    destruct Hc as (Hne & Hns & _). destruct c as [|x c]; [contradiction|].
    inversion Hns; subst. exists x, c. auto.
  - destruct IH as (x & body & IH & Hx); [discriminate|].
    unfold addSlash. destruct (_ || _).
    + cbn [rev]. rewrite IH. exists x. eexists. split; [reflexivity|].
      exact Hx.
    + rewrite IH. exists x. eexists. split; [reflexivity | exact Hx].
Qed.

Lemma rev_bufOf_dotdot (pre : list ascii) (done : list (list ascii)) :
  pre <> [] ->
  exists t, rev (bufOf false pre done) = rev pre ++ t
            /\ atElementEnd t = true.
Proof.
  intros Hpre. induction done as [|c done (t & IH & Ht)].
  - exists []. rewrite app_nil_r. auto.
  - cbn [bufOf]. rewrite rev_app_distr, rev_involutive.
    pose proof (length_bufOf false pre done) as Hlen.
    unfold addSlash. cbn [andb negb orb].
    destruct (Nat.eqb_spec (length (bufOf false pre done)) 0) as [H0 | _].
    { destruct pre; [contradiction | simpl in Hlen; lia]. }
    cbn [negb rev]. rewrite IH, <- !app_assoc.
    exists (t ++ ["/"%char] ++ c). split; [reflexivity|].
    destruct t; [reflexivity | exact Ht].
Qed.

Lemma HasPrefix_slash (c : ascii) (s : string) :
  HasPrefix (String c s) "/" = isPathSeparator c.
Proof.
  unfold HasPrefix, isPathSeparator. cbn [String.prefix].
  destruct (ascii_dec "/" c) as [<- | Hne].
  - destruct s; reflexivity.
  - symmetry. apply Ascii.eqb_neq. congruence.
Qed.

Lemma prefix_append (s t : string) : String.prefix s (s ++ t) = true.
Proof.
  induction s as [|a s IH]; [destruct t; reflexivity|].
  change (String.prefix (String a s) (String a s ++ t))
    with (if ascii_dec a a then String.prefix s (s ++ t) else false).
  destruct (ascii_dec a a); [exact IH | contradiction].
Qed.

Lemma bufOf_rooted_nonempty (done : list (list ascii)) :
  (length (bufOf true ["/"%char] done) =? 0)%nat = false.
Proof.
  pose proof (length_bufOf true ["/"%char] done) as H. simpl in H.
  apply Nat.eqb_neq. lia.
Qed.

Lemma Clean_rooted_form (p : string) :
  HasPrefix p "/" = true ->
  exists done,
    Forall realElement done
    /\ Clean p = string_of_list_ascii (rev (bufOf true ["/"%char] done)).
Proof.
  destruct p as [|c s]; [discriminate|].
  rewrite HasPrefix_slash. intros Hc.
  unfold Clean. cbn [list_ascii_of_string]. rewrite Hc.
  destruct (proj1 (cleanLoop_form _ (list_ascii_of_string s) (le_n _)
                     true ["/"%char] [] eq_refl (List.Forall_nil _)))
    as (pre & done & Hbase & Hdone & Hout).
  simpl in Hbase. subst pre. cbn [bufOf length] in Hout.
  exists done. split; [exact Hdone|].
  rewrite Hout, bufOf_rooted_nonempty. reflexivity.
Qed.

Lemma Clean_relative_form (p : string) :
  HasPrefix p "/" = false ->
  Clean p = "."
  \/ exists pre done,
       baseOK false pre /\ Forall realElement done
       /\ bufOf false pre done <> []
       /\ Clean p = string_of_list_ascii (rev (bufOf false pre done)).
Proof.
  destruct p as [|c s]; [left; reflexivity|].
  rewrite HasPrefix_slash. intros Hc.
  unfold Clean. cbn [list_ascii_of_string]. rewrite Hc.
  destruct (proj1 (cleanLoop_form _ (c :: list_ascii_of_string s) (le_n _)
                     false [] [] (or_introl eq_refl) (List.Forall_nil _)))
    as (pre & done & Hbase & Hdone & Hout).
  cbn [bufOf length] in Hout. rewrite Hout.
  destruct (bufOf false pre done) as [|a l] eqn:Hbuf.
  - left. reflexivity.
  - right. exists pre, done. rewrite Hbuf.
    split; [exact Hbase|]. split; [exact Hdone|].
    split; [discriminate | reflexivity].
Qed.

Lemma Clean_rendered (done : list (list ascii)) :
  Forall realElement done ->
  Clean (string_of_list_ascii (rev (bufOf true ["/"%char] done)))
  = string_of_list_ascii (rev (bufOf true ["/"%char] done)).
Proof.
  intros Hdone. unfold Clean.
  rewrite list_ascii_of_string_of_list_ascii.
  pose proof (cleanLoop_rendered done Hdone [] eq_refl) as Hloop.
  rewrite app_nil_r in Hloop.
  destruct (rev_bufOf_rooted_head done) as (body & Hb).
  rewrite Hb in *. cbn [cleanLoop] in Hloop.
  change (isPathSeparator "/") with true in *. cbn iota in *.
  rewrite Hloop, bufOf_rooted_nonempty, Hb. reflexivity.
Qed.

Lemma cleanPath_unfold (p : string) :
  cleanPath p
  = if HasPrefix (Clean p) "/" then Clean p else String.append "/" (Clean p).
Proof.
  unfold cleanPath, ToSlash. destruct (HasPrefix (Clean p) "/"); reflexivity.
Qed.

Lemma cleanPath_rooted (p : string) : HasPrefix (cleanPath p) "/" = true.
Proof.
  rewrite cleanPath_unfold.
  destruct (HasPrefix (Clean p) "/") eqn:H; [exact H|].
  exact (HasPrefix_slash "/"%char (Clean p)).
Qed.

Lemma cleanPath_clean (p : string) :
  Clean p <> "." -> Clean p <> ".." -> HasPrefix (Clean p) "../" = false ->
  Clean (cleanPath p) = cleanPath p.
Proof.
  intros Hdot Hdd Hup.
  destruct (HasPrefix p "/") eqn:Hp.
  - destruct (Clean_rooted_form p Hp) as (done & Hdone & Hc).
    destruct (rev_bufOf_rooted_head done) as (body & Hb).
    assert (Hpre : HasPrefix (Clean p) "/" = true).
    { rewrite Hc, Hb. exact (HasPrefix_slash "/"%char _). }
    rewrite cleanPath_unfold, Hpre, Hc. apply Clean_rendered, Hdone.
  - destruct (Clean_relative_form p Hp)
      as [Hc | (pre & done & Hbase & Hdone & Hne & Hc)];
      [contradiction|].
    destruct pre as [|a pre].
    + assert (Hd : done <> []) by (intros ->; apply Hne; reflexivity).
      destruct (rev_bufOf_relative_head done Hdone Hd)
        as (x & body & Hx & Hsep).
      assert (Hpre : HasPrefix (Clean p) "/" = false).
      { rewrite Hc, Hx. cbn [string_of_list_ascii].
        rewrite HasPrefix_slash. exact Hsep. }
      rewrite cleanPath_unfold, Hpre, Hc.
      change (String.append "/"
                (string_of_list_ascii (rev (bufOf false [] done))))
        with (string_of_list_ascii
                ("/"%char :: rev (bufOf false [] done))).
      rewrite <- rev_bufOf_relative. apply Clean_rendered, Hdone.
    + exfalso.
      destruct (rev_bufOf_dotdot (a :: pre) done ltac:(discriminate))
        as (t & Ht & Hend).
      rewrite Ht in Hc. unfold baseOK in Hbase.
      destruct Hbase as [H | [H | (q & H)]]; rewrite H in Hc.
      * apply (f_equal (@length ascii)) in H. rewrite length_rev in H.
        discriminate H.
      * destruct t as [|s t].
        -- apply Hdd. exact Hc.
        -- simpl in Hend. apply isPathSeparator_eq in Hend. subst s.
           rewrite Hc in Hup.
           change (string_of_list_ascii
                     (["."%char; "."%char] ++ "/"%char :: t))
             with ("../" ++ string_of_list_ascii t)%string in Hup.
           unfold HasPrefix in Hup. rewrite prefix_append in Hup.
           discriminate Hup.
      * rewrite Hc in Hup.
        change (string_of_list_ascii
                  (("."%char :: "."%char :: "/"%char :: q) ++ t))
          with ("../" ++ string_of_list_ascii (q ++ t))%string in Hup.
        unfold HasPrefix in Hup. rewrite prefix_append in Hup.
        discriminate Hup.
Qed.

Lemma length_backtrack (dotdot : nat) (out : list ascii) :
  out <> [] -> (length (backtrack dotdot out) < length out)%nat.
Proof.
  induction out as [|c out IH]; [contradiction|]. intros _. simpl.
  destruct ((dotdot <? length out)%nat && negb (isPathSeparator c)) eqn:Hc;
    [|lia].
  destruct out as [|c' out'].
  - apply andb_prop in Hc as [Hc _]. simpl in Hc. discriminate Hc.
  - specialize (IH ltac:(discriminate)). lia.
Qed.

(** Cleaning a rooted path never makes it longer. *)
Lemma cleanLoop_length (n : nat) :
  forall path, (length path <= n)%nat ->
  forall out,
  (length (cleanLoop true false path out 1)
   <= length (addSlash true out) + length path)%nat
  /\ (length (cleanLoop true true path out 1)
      <= length out + length path)%nat.
Proof.
  induction n as [|n IH]; intros path Hlen out;
    pose proof (length_addSlash true out) as Hs.
  - destruct path; [|simpl in Hlen; lia]. simpl. lia.
  - destruct path as [|x rest]; [simpl; lia|].
    simpl in Hlen. assert (Hrest : (length rest <= n)%nat) by lia.
    pose proof (proj1 (IH rest Hrest out)) as IHf.
    cbn [cleanLoop]. destruct (isPathSeparator x) eqn:Hx.
    + unfold addSlash in *. simpl length in *.
      destruct (_ || _); simpl length in *; lia.
    + split.
      * destruct (isDot x && atElementEnd rest); [simpl length; lia|].
        pose proof (proj2 (IH rest Hrest (x :: addSlash true out))) as IHc.
        destruct rest as [|c1 rest2]; [simpl length in *; lia|].
        destruct (isDot x && isDot c1 && atElementEnd rest2);
          [|simpl length in *; lia].
        assert (Hrest2 : (length rest2 <= n)%nat) by (simpl in Hrest; lia).
        destruct (Nat.ltb_spec 1 (length out)) as [Hlt | Hge].
        -- pose proof (proj1 (IH rest2 Hrest2 (backtrack 1 out))) as IHb.
           pose proof (length_addSlash true (backtrack 1 out)).
           assert (Hb : (length (backtrack 1 out) < length out)%nat).
           { apply length_backtrack. destruct out; [simpl in Hlt; lia|].
             discriminate. }
           assert (Ha : (length (addSlash true (backtrack 1 out))
                         <= S (length (backtrack 1 out)))%nat).
           { unfold addSlash. destruct (_ || _); simpl; lia. }
           simpl length in *. lia.
        -- cbn [negb]. pose proof (proj1 (IH rest2 Hrest2 out)).
           simpl length in *. lia.
      * pose proof (proj2 (IH rest Hrest (x :: out))).
        simpl length in *. lia.
Qed.

Lemma length_string_of_list_ascii (l : list ascii) :
  String.length (string_of_list_ascii l) = length l.
Proof. induction l as [|a l IH]; simpl; [reflexivity | now rewrite IH]. Qed.

Lemma length_list_ascii_of_string (s : string) :
  length (list_ascii_of_string s) = String.length s.
Proof. induction s as [|a s IH]; simpl; [reflexivity | now rewrite IH]. Qed.

Lemma Clean_rooted_length (s : string) :
  (String.length (Clean (String "/" s)) <= 1 + String.length s)%nat.
Proof.
  unfold Clean. cbn [list_ascii_of_string].
  change (isPathSeparator "/") with true. cbn iota zeta.
  pose proof (proj1 (cleanLoop_length _ (list_ascii_of_string s) (le_n _)
                       ["/"%char])) as Hlen.
  rewrite length_list_ascii_of_string in Hlen.
  change (length (addSlash true ["/"%char])) with 1%nat in Hlen.
  destruct (cleanLoop true false (list_ascii_of_string s) ["/"%char] 1)
    as [|a l]; cbn [length Nat.eqb].
  - simpl. lia.
  - rewrite length_string_of_list_ascii, length_rev. exact Hlen.
Qed.

Lemma Clean_above_root (q : string) :
  Clean (String "/" (String "." (String "." (String "/" q))))
  = Clean (String "/" q).
Proof. reflexivity. Qed.

Lemma HasPrefix_dotdot (s : string) :
  HasPrefix s "../" = true ->
  exists q, s = String "." (String "." (String "/" q)).
Proof.
  unfold HasPrefix.
  destruct s as [|a [|b [|c q]]]; try discriminate;
    cbn [String.prefix];
    destruct (ascii_dec "." a) as [<- |]; try discriminate;
    destruct (ascii_dec "." b) as [<- |]; try discriminate;
    destruct (ascii_dec "/" c) as [<- |]; try discriminate.
  intros _. exists q. reflexivity.
Qed.

(** The cleaned path with ["/"] in front is itself clean exactly when the
    cleaned path is not [.], [..] or a path that begins with [../]. *)
Lemma cleanPath_isClean (p : string) :
  isClean (cleanPath p)
  = negb (String.eqb (Clean p) "." || String.eqb (Clean p) ".."
          || HasPrefix (Clean p) "../").
Proof.
  unfold isClean.
  destruct (String.eqb_spec (Clean p) ".") as [Hdot | Hdot].
  { rewrite cleanPath_unfold, Hdot. reflexivity. }
  destruct (String.eqb_spec (Clean p) "..") as [Hdd | Hdd].
  { rewrite cleanPath_unfold, Hdd. reflexivity. }
  destruct (HasPrefix (Clean p) "../") eqn:Hup.
  - destruct (HasPrefix_dotdot _ Hup) as (q & Hq).
    rewrite cleanPath_unfold, Hq.
    rewrite HasPrefix_slash. change (isPathSeparator ".") with false.
    cbn iota.
    change (String.eqb
              (Clean (String "/" (String "." (String "." (String "/" q)))))
              (String "/" (String "." (String "." (String "/" q))))
            = false).
    rewrite Clean_above_root. apply String.eqb_neq. intros Heq.
    pose proof (Clean_rooted_length q) as Hlen.
    rewrite Heq in Hlen. simpl in Hlen. lia.
  - cbn [orb negb]. rewrite (cleanPath_clean p Hdot Hdd Hup).
    apply String.eqb_refl.
Qed.

(** ** REALPATH *)

(** C6.  REALPATH of ["."] is answered with the name ["/."]: it begins
    with ["/"] but is not a lexically clean path, its cleaning being
    ["/"].  [cleanPath] cleans the path first and puts ["/"] in front
    afterwards, so every relative path that cleans to [.], to [..] or to
    a path under [..] is answered with a path that is not clean; the
    empty path, [..] and [../x] are three more of them. *)
Lemma realpath_dot_not_clean :
  dispatch demoServer (sshFxpRealpathPacket 3 ".")
  = (demoServer,
     inl (sshFxpNamePacket 3 [mkNameAttr "/." "/." emptyFileStat]))
  /\ HasPrefix "/." "/" = true
  /\ Clean "/." = "/"
  /\ isClean "/." = false
  /\ (cleanPath "", isClean (cleanPath "")) = ("/.", false)
  /\ (cleanPath "..", isClean (cleanPath "..")) = ("/..", false)
  /\ (cleanPath "../x", isClean (cleanPath "../x")) = ("/../x", false).
Proof.
  split; [reflexivity|]. repeat split; vm_compute; reflexivity.
Qed.

(** ** The handle table *)

Lemma wrapInt_add_l (x y : Z) : wrapInt (wrapInt x + y) = wrapInt (x + y).
Proof.
  unfold wrapInt.
  replace ((x + 2 ^ (intSize - 1)) mod 2 ^ intSize - 2 ^ (intSize - 1) + y
           + 2 ^ (intSize - 1))
    with ((x + 2 ^ (intSize - 1)) mod 2 ^ intSize + y) by lia.
  rewrite Zplus_mod_idemp_l. f_equal. f_equal. lia.
Qed.

Lemma wrapInt_window (c d : Z) :
  0 < d < 2 ^ intSize -> wrapInt (c + d) <> wrapInt c.
Proof.
  intros Hd Heq. unfold wrapInt in Heq.
  assert (Hmod : (c + d + 2 ^ (intSize - 1)) mod 2 ^ intSize
                 = (c + 2 ^ (intSize - 1)) mod 2 ^ intSize) by lia.
  assert (Hz : d mod 2 ^ intSize = 0).
  { replace d with ((c + d + 2 ^ (intSize - 1)) - (c + 2 ^ (intSize - 1)))
      by lia.
    rewrite Zminus_mod, Hmod, Z.sub_diag. reflexivity. }
  rewrite Z.mod_small in Hz by lia. lia.
Qed.

Lemma pretty_N_go_length (x : N) (s : string) :
  (String.length s <= String.length (pretty_N_go x s))%nat.
Proof.
  revert s. induction (N.lt_wf_0 x) as [x _ IH]. intros s.
  destruct (N.eq_dec x 0%N) as [-> | Hx].
  - rewrite pretty_N_go_0. lia.
  - rewrite pretty_N_go_step by lia.
    etransitivity; [| apply IH; apply N.div_lt; lia].
    simpl. lia.
Qed.

Lemma pretty_positive_nonempty (p : positive) : pretty p <> "".
Proof.
  unfold pretty, pretty_positive, pretty, pretty_N.
  destruct (decide (N.pos p = 0%N)) as [? | _]; [discriminate|].
  rewrite pretty_N_go_step by lia.
  intros Heq.
  pose proof (pretty_N_go_length (N.pos p `div` 10)
                (String (pretty_N_char (N.pos p `mod` 10)) "")) as Hlen.
  rewrite Heq in Hlen. simpl in Hlen. lia.
Qed.

Lemma Itoa_nonempty (i : Z) : Itoa i <> "".
Proof.
  unfold Itoa, pretty, pretty_Z. destruct i as [| p | p].
  - discriminate.
  - apply pretty_positive_nonempty.
  - discriminate.
Qed.

Lemma Itoa_inj (i j : Z) : Itoa i = Itoa j -> i = j.
Proof. apply pretty_Z_inj. Qed.

Section Server.
Context `{B : Backend}.

Lemma nextRequest_handle (rs : RequestServer) (r : Request) :
  snd (nextRequest rs r) = Itoa (wrapInt (handleCount rs + 1)).
Proof. reflexivity. Qed.

Lemma nextRequest_handleCount (rs : RequestServer) (r : Request) :
  handleCount (fst (nextRequest rs r)) = wrapInt (handleCount rs + 1).
Proof. reflexivity. Qed.

Lemma closeRequest_handleCount (rs : RequestServer) (h : string) :
  handleCount (closeRequest rs h) = handleCount rs.
Proof.
  unfold closeRequest. destruct (openRequests rs !! h); [|reflexivity].
  destruct (Request_close _ _). reflexivity.
Qed.

Lemma handleRequest_handleCount (rs : RequestServer) (r : Request) :
  handleCount (fst (handleRequest rs r)) = handleCount rs.
Proof. unfold handleRequest. destruct (Request_handle _ _). reflexivity. Qed.

Lemma handleRequest_fst_snd (rs : RequestServer) (r : Request) :
  handleRequest rs r = (fst (handleRequest rs r), snd (handleRequest rs r)).
Proof. destruct (handleRequest rs r). reflexivity. Qed.

(** What the type switch does in each of its cases. *)

Lemma dispatch_opener (rs : RequestServer) (pkt : requestPacket) :
  isOpener pkt = true ->
  dispatch rs pkt
  = (fst (nextRequest rs (requestFromPacket pkt)),
     inl (sshFxpHandlePacket (id pkt)
            (snd (nextRequest rs (requestFromPacket pkt))))).
Proof. destruct pkt; intros Ho; try discriminate Ho; reflexivity. Qed.

Lemma dispatch_opener_binds (rs : RequestServer) (pkt : requestPacket)
    (h : string) :
  isOpener pkt = true ->
  Itoa (wrapInt (handleCount rs + 1)) = h ->
  snd (dispatch rs pkt) = inl (sshFxpHandlePacket (id pkt) h)
  /\ openRequests (fst (dispatch rs pkt)) !! h
     = Some (requestFromPacket pkt).
Proof.
  intros Ho <-. rewrite (dispatch_opener rs pkt Ho).
  split; [reflexivity | apply lookup_insert_eq].
Qed.

Lemma dispatch_unknown_handle (rs : RequestServer) (pkt : requestPacket)
    (h : string) :
  bearsHandle pkt = Some h -> openRequests rs !! h = None ->
  dispatch rs pkt
  = (rs, inl (statusFromError pkt (Some (Errno syscall.EBADF)))).
Proof.
  intros Hh Hnone.
  destruct pkt; simpl in Hh; try discriminate Hh; injection Hh as ->;
    simpl; unfold getRequest; rewrite Hnone; reflexivity.
Qed.

Lemma dispatch_handleCount (rs : RequestServer) (pkt : requestPacket) :
  handleCount (fst (dispatch rs pkt))
  = if isOpener pkt then wrapInt (handleCount rs + 1) else handleCount rs.
Proof.
  destruct pkt; simpl; try reflexivity;
    try apply closeRequest_handleCount;
    unfold getRequest;
    try (destruct (openRequests rs !! Handle); simpl);
    try reflexivity;
    rewrite (handleRequest_fst_snd rs); simpl;
    apply handleRequest_handleCount.
Qed.

Lemma packetWorker_cons (rs : RequestServer) (pkt : requestPacket)
    (pkts : list requestPacket) (rs' : RequestServer)
    (rpkt : responsePacket) :
  dispatch rs pkt = (rs', inl rpkt) ->
  packetWorker rs (pkt :: pkts)
  = packetWorker (fst (sendPacket rs' rpkt)) pkts.
Proof. intros Hd. simpl. rewrite Hd. reflexivity. Qed.

Lemma packetWorker_stop (rs : RequestServer) (pkt : requestPacket)
    (pkts : list requestPacket) (rs' : RequestServer) (err : error) :
  dispatch rs pkt = (rs', inr err) ->
  packetWorker rs (pkt :: pkts) = (rs', Some err).
Proof. intros Hd. simpl. rewrite Hd. reflexivity. Qed.

Lemma sendPacket_handleCount (rs : RequestServer) (m : responsePacket) :
  handleCount (fst (sendPacket rs m)) = handleCount rs.
Proof. reflexivity. Qed.

Lemma openerCount_nonneg (pkts : list requestPacket) : 0 <= openerCount pkts.
Proof.
  induction pkts as [|pkt pkts IH]; simpl; [lia|].
  destruct (isOpener pkt); lia.
Qed.

Lemma packetWorker_handleCount (pkts : list requestPacket) :
  forall rs : RequestServer,
  exists k, 0 <= k <= openerCount pkts
    /\ forall y, wrapInt (handleCount (fst (packetWorker rs pkts)) + y)
                 = wrapInt (handleCount rs + k + y).
Proof.
  induction pkts as [|pkt pkts IH]; intros rs.
  - exists 0. split; [simpl; lia|]. intros y. simpl. f_equal. lia.
  - pose proof (dispatch_handleCount rs pkt) as Hc.
    pose proof (openerCount_nonneg pkts) as Hnn.
    cbn [openerCount].
    destruct (dispatch rs pkt) as [rs' [rpkt | err]] eqn:Hd;
      cbn [fst] in Hc.
    + rewrite (packetWorker_cons _ _ _ _ _ Hd).
      destruct (IH (fst (sendPacket rs' rpkt))) as (k & Hk & Hy).
      rewrite sendPacket_handleCount, Hc in Hy.
      destruct (isOpener pkt).
      * exists (k + 1). split; [lia|]. intros y. rewrite Hy.
        rewrite <- Z.add_assoc, wrapInt_add_l. f_equal. lia.
      * exists k. split; [lia|]. exact Hy.
    + rewrite (packetWorker_stop _ _ _ _ _ Hd). cbn [fst]. rewrite Hc.
      destruct (isOpener pkt).
      * exists 1. split; [lia|]. intros y.
        rewrite wrapInt_add_l; f_equal; lia.
      * exists 0. split; [lia|]. intros y. f_equal. lia.
Qed.

Lemma allocations_handleCount (n : N) (r : Request) (rs : RequestServer)
    (y : Z) :
  wrapInt (handleCount (allocations n r rs) + y)
  = wrapInt (handleCount rs + Z.of_N n + y).
Proof.
  unfold allocations. revert y.
  induction n as [|n IH] using N.peano_ind; intros y.
  - simpl. f_equal. lia.
  - rewrite N.iter_succ, nextRequest_handleCount, wrapInt_add_l.
    specialize (IH (1 + y)). rewrite Z.add_assoc in IH. rewrite IH.
    f_equal. lia.
Qed.

Lemma allocations_lookup (n : N) (r : Request) (rs : RequestServer)
    (h : string) :
  openRequests rs !! h = Some r ->
  openRequests (allocations n r rs) !! h = Some r.
Proof.
  intros Hl. unfold allocations.
  induction n as [|n IH] using N.peano_ind; [exact Hl|].
  rewrite N.iter_succ. cbn [nextRequest fst openRequests].
  destruct (decide (Itoa (wrapInt (handleCount
                                     (N.iter n
                                        (fun rs => fst (nextRequest rs r))
                                        rs) + 1)) = h)) as [<- | Hne].
  - apply lookup_insert_eq.
  - rewrite lookup_insert_ne by exact Hne. exact IH.
Qed.

End Server.

(** ** The packet worker *)

Section Worker.
Context `{B : Backend}.

Lemma handleRequest_sent (rs : RequestServer) (r : Request) :
  sent (fst (handleRequest rs r)) = sent rs.
Proof. unfold handleRequest. destruct (Request_handle _ _). reflexivity. Qed.

Lemma handleRequest_reply (rs : RequestServer) (r : Request) :
  snd (handleRequest rs r) = fst (Request_handle r (world rs)).
Proof. unfold handleRequest. destruct (Request_handle _ _). reflexivity. Qed.

Lemma closeRequest_sent (rs : RequestServer) (h : string) :
  sent (closeRequest rs h) = sent rs.
Proof.
  unfold closeRequest. destruct (openRequests rs !! h); [|reflexivity].
  destruct (Request_close _ _). reflexivity.
Qed.

Lemma dispatch_sent (rs : RequestServer) (pkt : requestPacket) :
  sent (fst (dispatch rs pkt)) = sent rs.
Proof.
  destruct pkt; simpl; try reflexivity;
    try apply closeRequest_sent;
    unfold getRequest;
    try (destruct (openRequests rs !! Handle); simpl);
    try reflexivity;
    rewrite (handleRequest_fst_snd rs); simpl;
    apply handleRequest_sent.
Qed.

Lemma dispatch_replies (rs : RequestServer) (pkt : requestPacket) :
  matchesCase pkt = true ->
  exists rs' rpkt, dispatch rs pkt = (rs', inl rpkt).
Proof.
  intros Hm.
  destruct pkt; try discriminate Hm; simpl; unfold getRequest;
    try (destruct (openRequests rs !! Handle); simpl);
    try rewrite (handleRequest_fst_snd rs);
    eexists _, _; reflexivity.
Qed.

Lemma dispatch_shape (rs rs' : RequestServer) (pkt : requestPacket)
    (rpkt : responsePacket) :
  (forall r w, isReply (fst (Request_handle r w)) = true) ->
  dispatch rs pkt = (rs', inl rpkt) ->
  isReply rpkt = negb (isInit pkt)
  /\ match fixedShape rs pkt with
     | Some shape => shapeOf rpkt = shape
     | None => exists r, rpkt = fst (Request_handle r (world rs))
     end.
Proof.
  intros Hh Hd.
  destruct pkt; simpl in Hd; unfold getRequest in Hd; simpl fixedShape;
    try (destruct (openRequests rs !! Handle) eqn:Hl; simpl in Hd);
    try (rewrite (handleRequest_fst_snd rs) in Hd;
         rewrite handleRequest_reply in Hd);
    try discriminate Hd; injection Hd as <- <-; simpl;
    (split; [first [reflexivity | apply Hh]
            | first [reflexivity | eexists; reflexivity]]).
Qed.

(** A packet that no case matches gets no reply and ends the worker with
    the error of the [default] case. *)
Lemma dispatch_unmatched (rs : RequestServer) (pkt : requestPacket)
    (pkts : list requestPacket) :
  matchesCase pkt = false ->
  exists err,
    dispatch rs pkt = (rs, inr err)
    /\ packetWorker rs (pkt :: pkts) = (rs, Some err).
Proof.
  intros Hm. destruct pkt; try discriminate Hm.
  eexists. split; reflexivity.
Qed.

(** C1 (as amended).  For every packet that a case of the worker's type
    switch matches, exactly one response is produced and emitted.  It is
    a VERSION packet for INIT, a status for CLOSE, a name reply for
    REALPATH, a handle for OPEN and OPENDIR, a status for a request on an
    unknown handle, and otherwise the reply of the handlers; it is one of
    status, data, handle, name, attrs and extended-reply for every packet
    but INIT, as long as the handlers return only those. *)
Theorem one_reply_per_matched_packet (rs : RequestServer)
    (pkt : requestPacket) :
  (forall r w, isReply (fst (Request_handle r w)) = true) ->
  matchesCase pkt = true ->
  exists rs' rpkt,
    dispatch rs pkt = (rs', inl rpkt)
    /\ packetWorker rs [pkt] = (fst (sendPacket rs' rpkt), None)
    /\ sent (fst (packetWorker rs [pkt])) = sent rs ++ [rpkt]
    /\ isReply rpkt = negb (isInit pkt)
    /\ match fixedShape rs pkt with
       | Some shape => shapeOf rpkt = shape
       | None => exists r, rpkt = fst (Request_handle r (world rs))
       end.
Proof.
  intros Hh Hm.
  destruct (dispatch_replies rs pkt Hm) as (rs' & rpkt & Hd).
  exists rs', rpkt. split; [exact Hd|].
  rewrite (packetWorker_cons _ _ _ _ _ Hd).
  split; [reflexivity|]. split.
  - pose proof (dispatch_sent rs pkt) as Hs. rewrite Hd in Hs.
    simpl in Hs. simpl. rewrite Hs. reflexivity.
  - exact (dispatch_shape rs rs' pkt rpkt Hh Hd).
Qed.


(** C3 (as amended).  A CLOSE request whose handle is not in the
    open-request table leaves the server as it is, and its status reply
    carries OK (0). *)
Theorem close_unknown_handle (rs : RequestServer) (i : Z) (h : string) :
  openRequests rs !! h = None ->
  dispatch rs (sshFxpClosePacket i h)
  = (rs, inl (sshFxpStatusResponse i sshFxOk ""))
  /\ statusCode (sshFxpStatusResponse i sshFxOk "") = Some 0.
Proof.
  intros Hnone. simpl. unfold closeRequest. rewrite Hnone.
  split; reflexivity.
Qed.

(** C4 (as amended).  A CLOSE request on a handle that is in the
    open-request table closes the stored request and removes the handle
    from the table, whether or not the close fails; the status reply
    carries OK (0) in either case. *)
Theorem close_removes_handle (rs : RequestServer) (i : Z) (h : string)
    (r : Request) :
  openRequests rs !! h = Some r ->
  openRequests (fst (dispatch rs (sshFxpClosePacket i h)))
  = delete h (openRequests rs)
  /\ openRequests (fst (dispatch rs (sshFxpClosePacket i h))) !! h = None
  /\ world (fst (dispatch rs (sshFxpClosePacket i h)))
     = snd (Request_close r (world rs))
  /\ snd (dispatch rs (sshFxpClosePacket i h))
     = inl (sshFxpStatusResponse i sshFxOk "").
Proof.
  intros Hsome. simpl. unfold closeRequest. rewrite Hsome.
  destruct (Request_close r (world rs)) as [err w]. simpl.
  repeat split. apply lookup_delete_eq.
Qed.

(** C10.  FSTAT on a handle of the open-request table is rewritten into
    the STAT request on the path stored for the handle, and FSETSTAT into
    the SETSTAT request on that path with the same flags and attrs,
    before it is handled: that request, and no other, is passed to the
    handlers, on the world as it stands; the reply is the handlers' reply
    to it and the world afterwards is the one they leave; the table, the
    counter and the replies already sent are untouched.  The server
    answers exactly as it answers the STAT (SETSTAT) packet itself: same
    reply, same server afterwards. *)
Theorem fstat_as_stat (rs : RequestServer) (i : Z) (h : string)
    (flags : Z) (attrs : list Byte.byte) (r : Request) :
  openRequests rs !! h = Some r ->
  (dispatch rs (sshFxpFstatPacket i h)
   = dispatch rs (sshFxpStatPacket i (Filepath r))
   /\ snd (dispatch rs (sshFxpFstatPacket i h))
      = inl (fst (Request_handle
                    (requestFromPacket (sshFxpStatPacket i (Filepath r)))
                    (world rs)))
   /\ handled (fst (dispatch rs (sshFxpFstatPacket i h)))
      = handled rs ++ [requestFromPacket (sshFxpStatPacket i (Filepath r))]
   /\ world (fst (dispatch rs (sshFxpFstatPacket i h)))
      = snd (Request_handle
               (requestFromPacket (sshFxpStatPacket i (Filepath r)))
               (world rs))
   /\ openRequests (fst (dispatch rs (sshFxpFstatPacket i h)))
      = openRequests rs
   /\ handleCount (fst (dispatch rs (sshFxpFstatPacket i h)))
      = handleCount rs
   /\ sent (fst (dispatch rs (sshFxpFstatPacket i h))) = sent rs)
  /\ (dispatch rs (sshFxpFsetstatPacket i h flags attrs)
      = dispatch rs (sshFxpSetstatPacket i (Filepath r) flags attrs)
      /\ snd (dispatch rs (sshFxpFsetstatPacket i h flags attrs))
         = inl (fst (Request_handle
                       (requestFromPacket
                          (sshFxpSetstatPacket i (Filepath r) flags attrs))
                       (world rs)))
      /\ handled (fst (dispatch rs (sshFxpFsetstatPacket i h flags attrs)))
         = handled rs
           ++ [requestFromPacket
                 (sshFxpSetstatPacket i (Filepath r) flags attrs)]
      /\ world (fst (dispatch rs (sshFxpFsetstatPacket i h flags attrs)))
         = snd (Request_handle
                  (requestFromPacket
                     (sshFxpSetstatPacket i (Filepath r) flags attrs))
                  (world rs))
      /\ openRequests
           (fst (dispatch rs (sshFxpFsetstatPacket i h flags attrs)))
         = openRequests rs
      /\ handleCount
           (fst (dispatch rs (sshFxpFsetstatPacket i h flags attrs)))
         = handleCount rs
      /\ sent (fst (dispatch rs (sshFxpFsetstatPacket i h flags attrs)))
         = sent rs).
Proof.
  intros Hsome. simpl. unfold getRequest. rewrite Hsome. simpl.
  unfold handleRequest.
  split.
  - destruct (Request_handle
                (requestFromPacket (sshFxpStatPacket i (Filepath r)))
                (world rs)) as [rpkt w].
    repeat split.
  - destruct (Request_handle
                (requestFromPacket
                   (sshFxpSetstatPacket i (Filepath r) flags attrs))
                (world rs)) as [rpkt w].
    repeat split.
Qed.

Lemma wrapInt_small (x : Z) :
  - 2 ^ (intSize - 1) <= x < 2 ^ (intSize - 1) -> wrapInt x = x.
Proof.
  intros Hx. unfold wrapInt.
  assert (H2 : 2 ^ intSize = 2 * 2 ^ (intSize - 1)) by reflexivity.
  rewrite Z.mod_small; lia.
Qed.

Lemma dispatch_openRequests (rs : RequestServer) (pkt : requestPacket) :
  openRequests (fst (dispatch rs pkt))
  = match pkt with
    | sshFxpClosePacket _ h => delete h (openRequests rs)
    | _ =>
        if isOpener pkt
        then <[Itoa (wrapInt (handleCount rs + 1)) := requestFromPacket pkt]>
               (openRequests rs)
        else openRequests rs
    end.
Proof.
  destruct pkt; simpl; try reflexivity.
  1: { unfold closeRequest.
       destruct (openRequests rs !! Handle) eqn:Hl.
       - destruct (Request_close _ _). reflexivity.
       - symmetry. apply delete_id. exact Hl. }
  all: unfold getRequest;
    try (destruct (openRequests rs !! Handle); simpl);
    try reflexivity;
    rewrite (handleRequest_fst_snd rs); simpl;
    unfold handleRequest; destruct (Request_handle _ _); reflexivity.
Qed.

Lemma dispatch_tableInv (rs : RequestServer) (pkt : requestPacket) (n : Z) :
  0 <= handleCount rs <= n -> n + 1 < 2 ^ (intSize - 1) -> tableInv rs ->
  0 <= handleCount (fst (dispatch rs pkt)) <= n + 1
  /\ tableInv (fst (dispatch rs pkt)).
Proof.
  intros Hc Hn Hinv.
  pose proof (dispatch_handleCount rs pkt) as Hcount.
  pose proof (dispatch_openRequests rs pkt) as Htab.
  assert (Hw : wrapInt (handleCount rs + 1) = handleCount rs + 1)
    by (apply wrapInt_small; lia).
  rewrite Hw in *.
  assert (Hsame : openRequests (fst (dispatch rs pkt)) = openRequests rs ->
                  handleCount (fst (dispatch rs pkt)) = handleCount rs ->
                  0 <= handleCount (fst (dispatch rs pkt)) <= n + 1
                  /\ tableInv (fst (dispatch rs pkt))).
  { intros Ht Hk. split; [lia|]. intros h Hh. rewrite Ht in Hh.
    rewrite Hk. apply Hinv, Hh. }
  assert (Hopen : openRequests (fst (dispatch rs pkt))
                  = <[Itoa (handleCount rs + 1) := requestFromPacket pkt]>
                      (openRequests rs) ->
                  handleCount (fst (dispatch rs pkt)) = handleCount rs + 1 ->
                  0 <= handleCount (fst (dispatch rs pkt)) <= n + 1
                  /\ tableInv (fst (dispatch rs pkt))).
  { intros Ht Hk. split; [lia|]. intros h Hh. rewrite Ht in Hh.
    rewrite Hk. apply lookup_insert_is_Some in Hh as [<- | [_ Hh]].
    - exists (handleCount rs + 1). split; [lia | reflexivity].
    - destruct (Hinv h Hh) as (k & Hk1 & ->). exists k. split; [lia|].
      reflexivity. }
  destruct pkt; cbn [isOpener] in Hcount, Htab; auto.
  split; [lia|]. intros h Hh. rewrite Htab in Hh. rewrite Hcount.
  apply lookup_delete_is_Some in Hh as [_ Hh]. apply Hinv, Hh.
Qed.

Lemma packetWorker_tableInv (pkts : list requestPacket) :
  forall (rs : RequestServer) (n : Z),
  0 <= handleCount rs <= n ->
  n + Z.of_nat (length pkts) < 2 ^ (intSize - 1) ->
  tableInv rs ->
  0 <= handleCount (fst (packetWorker rs pkts)) <= n + Z.of_nat (length pkts)
  /\ tableInv (fst (packetWorker rs pkts)).
Proof.
  induction pkts as [|pkt pkts IH]; intros rs n Hc Hn Hinv.
  - simpl. split; [lia | exact Hinv].
  - simpl length in *.
    destruct (dispatch_tableInv rs pkt n Hc ltac:(lia) Hinv) as [Hc' Hinv'].
    destruct (dispatch rs pkt) as [rs' [rpkt | err]] eqn:Hd;
      cbn [fst] in Hc', Hinv'.
    + rewrite (packetWorker_cons _ _ _ _ _ Hd).
      destruct (IH (fst (sendPacket rs' rpkt)) (n + 1)) as [H1 H2];
        [exact Hc' | lia | exact Hinv' |].
      split; [lia | exact H2].
    + rewrite (packetWorker_stop _ _ _ _ _ Hd). cbn [fst].
      split; [lia | exact Hinv'].
Qed.

(** C5 (as amended).  Every handle the server issues for OPEN and OPENDIR
    is a non-empty string, the decimal rendering of the incremented
    counter, and differs from a handle issued earlier on the connection
    as long as fewer than [2 ^ intSize - 1] handles were issued in
    between: [p1] and [p2] are two openers, [pkts] the packets served
    between them. *)
Theorem handles_distinct (rs : RequestServer) (p1 p2 : requestPacket)
    (pkts : list requestPacket) :
  isOpener p1 = true -> isOpener p2 = true ->
  openerCount pkts < 2 ^ intSize - 1 ->
  exists h1 h2,
    snd (dispatch rs p1) = inl (sshFxpHandlePacket (id p1) h1)
    /\ snd (dispatch (fst (packetWorker rs (p1 :: pkts))) p2)
       = inl (sshFxpHandlePacket (id p2) h2)
    /\ h1 = Itoa (wrapInt (handleCount rs + 1))
    /\ h1 <> "" /\ h2 <> "" /\ h1 <> h2.
Proof.
  intros Ho1 Ho2 Hlen.
  pose proof (dispatch_opener rs p1 Ho1) as Hd.
  rewrite (packetWorker_cons _ _ _ _ _ Hd).
  set (rs1 := fst (sendPacket _ _)).
  destruct (packetWorker_handleCount pkts rs1) as (k & Hk & Hy).
  set (rsB := fst (packetWorker rs1 pkts)) in *.
  exists (Itoa (wrapInt (handleCount rs + 1))),
         (Itoa (wrapInt (handleCount rsB + 1))).
  split; [rewrite Hd; reflexivity|].
  split; [rewrite (dispatch_opener rsB p2 Ho2); reflexivity|].
  split; [reflexivity|].
  split; [apply Itoa_nonempty|]. split; [apply Itoa_nonempty|].
  intros Heq. apply Itoa_inj in Heq.
  rewrite Hy in Heq.
  change (handleCount rs1) with (wrapInt (handleCount rs + 1)) in Heq.
  rewrite <- Z.add_assoc, wrapInt_add_l in Heq.
  symmetry in Heq. revert Heq. apply wrapInt_window. lia.
Qed.

Lemma dispatch_issuedInv (rs : RequestServer) (pkt : requestPacket)
    (n : Z) :
  issuedInv rs n -> 0 <= n ->
  issuedInv (fst (dispatch rs pkt)) (n + if isOpener pkt then 1 else 0).
Proof.
  intros [Hc Hinv] Hn.
  pose proof (dispatch_handleCount rs pkt) as Hcount.
  pose proof (dispatch_openRequests rs pkt) as Htab.
  assert (Hsame : openRequests (fst (dispatch rs pkt)) = openRequests rs ->
                  handleCount (fst (dispatch rs pkt)) = handleCount rs ->
                  issuedInv (fst (dispatch rs pkt)) (n + 0)).
  { intros Ht Hk. rewrite Z.add_0_r. split; [congruence|].
    intros h Hh. rewrite Ht in Hh. apply Hinv, Hh. }
  assert (Hopen : openRequests (fst (dispatch rs pkt))
                  = <[Itoa (wrapInt (handleCount rs + 1))
                      := requestFromPacket pkt]> (openRequests rs) ->
                  handleCount (fst (dispatch rs pkt))
                  = wrapInt (handleCount rs + 1) ->
                  issuedInv (fst (dispatch rs pkt)) (n + 1)).
  { intros Ht Hk.
    assert (Hn1 : wrapInt (handleCount rs + 1) = wrapInt (n + 1))
      by (rewrite Hc; apply wrapInt_add_l).
    split; [congruence|].
    intros h Hh. rewrite Ht in Hh.
    apply lookup_insert_is_Some in Hh as [<- | [_ Hh]].
    - exists (n + 1). split; [lia|]. rewrite Hn1. reflexivity.
    - destruct (Hinv h Hh) as (k & Hk1 & ->). exists k. split; [lia|].
      reflexivity. }
  destruct pkt; cbn [isOpener] in Hcount, Htab |- *; auto.
  rewrite Z.add_0_r. split; [congruence|].
  intros h Hh. rewrite Htab in Hh.
  apply lookup_delete_is_Some in Hh as [_ Hh]. apply Hinv, Hh.
Qed.

Lemma packetWorker_issuedInv (pkts : list requestPacket) :
  forall (rs : RequestServer) (n : Z),
  issuedInv rs n -> 0 <= n ->
  exists m, n <= m <= n + openerCount pkts
            /\ issuedInv (fst (packetWorker rs pkts)) m.
Proof.
  induction pkts as [|pkt pkts IH]; intros rs n Hinv Hn.
  - exists n. split; [simpl; lia | exact Hinv].
  - pose proof (dispatch_issuedInv rs pkt n Hinv Hn) as Hinv'.
    pose proof (openerCount_nonneg pkts) as Hnn.
    cbn [openerCount].
    destruct (dispatch rs pkt) as [rs' [rpkt | err]] eqn:Hd;
      cbn [fst] in Hinv'.
    + rewrite (packetWorker_cons _ _ _ _ _ Hd).
      destruct (IH (fst (sendPacket rs' rpkt))
                  (n + if isOpener pkt then 1 else 0))
        as (m & Hm & Hinvm); [exact Hinv' | destruct (isOpener pkt); lia|].
      exists m. split; [destruct (isOpener pkt); lia | exact Hinvm].
    + rewrite (packetWorker_stop _ _ _ _ _ Hd). cbn [fst].
      exists (n + if isOpener pkt then 1 else 0).
      split; [destruct (isOpener pkt); lia | exact Hinv'].
Qed.

Lemma issuedInv_fresh (rs : RequestServer) (n : Z) :
  issuedInv rs n -> 0 <= n < 2 ^ intSize ->
  openRequests rs !! Itoa (wrapInt (handleCount rs + 1)) = None.
Proof.
  intros [Hc Hinv] Hn.
  destruct (openRequests rs !! Itoa (wrapInt (handleCount rs + 1)))
    eqn:Hl; [|reflexivity].
  destruct (Hinv _ (ex_intro _ _ Hl)) as (k & Hk & Heq).
  apply Itoa_inj in Heq. rewrite Hc, wrapInt_add_l in Heq.
  exfalso. apply (wrapInt_window k (n + 1 - k)); [lia|].
  rewrite <- Heq. f_equal. lia.
Qed.

(** C9 (as amended).  An OPEN or OPENDIR request is answered with a
    HANDLE packet, never a status: the handle is the one [nextRequest]
    allocates, the rendering of the incremented counter, now bound in the
    table to the request made from the packet; the handlers are not
    called and their world is untouched, whatever the path and the flags.
    The handle is freshly allocated, that is not in the table before, on
    every server reached from a new one by packets with fewer than
    [2 ^ intSize] OPEN and OPENDIR among them. *)
Theorem opener_replies_handle (rs : RequestServer) (pkt : requestPacket) :
  isOpener pkt = true ->
  dispatch rs pkt
  = (fst (nextRequest rs (requestFromPacket pkt)),
     inl (sshFxpHandlePacket (id pkt)
            (Itoa (wrapInt (handleCount rs + 1)))))
  /\ Itoa (wrapInt (handleCount rs + 1)) <> ""
  /\ openRequests (fst (dispatch rs pkt))
       !! Itoa (wrapInt (handleCount rs + 1))
     = Some (requestFromPacket pkt)
  /\ handled (fst (dispatch rs pkt)) = handled rs
  /\ world (fst (dispatch rs pkt)) = world rs
  /\ (forall w pkts,
        rs = fst (packetWorker (NewRequestServer w) pkts) ->
        openerCount pkts < 2 ^ intSize ->
        openRequests rs !! Itoa (wrapInt (handleCount rs + 1)) = None).
Proof.
  intros Ho. rewrite (dispatch_opener rs pkt Ho).
  split; [reflexivity|]. split; [apply Itoa_nonempty|].
  split; [apply lookup_insert_eq|]. split; [reflexivity|].
  split; [reflexivity|].
  intros w pkts -> Hlen.
  destruct (packetWorker_issuedInv pkts (NewRequestServer w) 0)
    as (m & Hm & Hinv); [|lia|].
  - split; [reflexivity|]. intros h Hh. simpl in Hh.
    rewrite lookup_empty in Hh. destruct Hh as [? Hh]. discriminate Hh.
  - apply (issuedInv_fresh _ m Hinv). lia.
Qed.

End Worker.

(** ** Concrete runs *)

(** C1 as stated fails on INIT: the one response is a VERSION packet,
    which is none of the six reply shapes. *)
Lemma init_reply_is_version :
  dispatch demoServer (sshFxInitPacket 3)
  = (demoServer, inl (sshFxVersionPacket sftpProtocolVersion []))
  /\ isReply (sshFxVersionPacket sftpProtocolVersion []) = false.
Proof. split; reflexivity. Qed.


Lemma demoServer_table :
  openRequests demoServer = {[ "1" := mkRequest "Open" "/tmp/x" 0 [] "" ]}.
Proof. reflexivity. Qed.

Lemma demoBackend_replies (r : Request) (w : @World demoBackend) :
  isReply (fst (@Request_handle demoBackend r w)) = true.
Proof. reflexivity. Qed.

Lemma one_reply_per_matched_packet_witness :
  (forall r w, isReply (fst (@Request_handle demoBackend r w)) = true)
  /\ matchesCase (sshFxpStatPacket 5 "/tmp/x") = true
  /\ exists rs' rpkt,
       dispatch demoServer (sshFxpStatPacket 5 "/tmp/x") = (rs', inl rpkt)
       /\ packetWorker demoServer [sshFxpStatPacket 5 "/tmp/x"]
          = (fst (sendPacket rs' rpkt), None)
       /\ sent (fst (packetWorker demoServer [sshFxpStatPacket 5 "/tmp/x"]))
          = sent demoServer ++ [rpkt]
       /\ isReply rpkt = negb (isInit (sshFxpStatPacket 5 "/tmp/x"))
       /\ match fixedShape demoServer (sshFxpStatPacket 5 "/tmp/x") with
          | Some shape => shapeOf rpkt = shape
          | None =>
              exists r, rpkt = fst (Request_handle r (world demoServer))
          end.
Proof.
  split; [exact demoBackend_replies|]. split; [reflexivity|].
  apply (@one_reply_per_matched_packet demoBackend demoServer
           (sshFxpStatPacket 5 "/tmp/x")).
  - exact demoBackend_replies.
  - reflexivity.
Defined.


(** C3 as stated fails: CLOSE on the unknown handle ["42"] is answered
    with status OK, not FAILURE. *)
Lemma close_unknown_handle_is_OK :
  openRequests demoServer !! "42" = None
  /\ dispatch demoServer (sshFxpClosePacket 7 "42")
     = (demoServer, inl (sshFxpStatusResponse 7 sshFxOk ""))
  /\ statusCode (sshFxpStatusResponse 7 sshFxOk "") <> Some sshFxFailure.
Proof.
  assert (Hnone : openRequests demoServer !! "42" = None).
  { rewrite demoServer_table. apply lookup_singleton_ne. discriminate. }
  split; [exact Hnone|]. split; [|discriminate].
  simpl. unfold closeRequest. rewrite Hnone. reflexivity.
Qed.

Lemma close_unknown_handle_witness :
  openRequests demoServer !! "42" = None
  /\ dispatch demoServer (sshFxpClosePacket 7 "42")
     = (demoServer, inl (sshFxpStatusResponse 7 sshFxOk ""))
  /\ statusCode (sshFxpStatusResponse 7 sshFxOk "") = Some 0.
Proof.
  assert (Hnone : openRequests demoServer !! "42" = None).
  { rewrite demoServer_table. apply lookup_singleton_ne. discriminate. }
  split; [exact Hnone|].
  exact (@close_unknown_handle demoBackend demoServer 7 "42" Hnone).
Defined.

Lemma demoServer_open :
  openRequests demoServer !! "1" = Some (mkRequest "Open" "/tmp/x" 0 [] "").
Proof. rewrite demoServer_table. apply lookup_singleton_eq. Qed.

(** C4 as stated fails in its second half: closing the request under
    handle ["1"] fails with EIO, the handle is removed, and the reply is
    status OK rather than the status of that error. *)
Lemma close_failure_not_reported :
  openRequests demoServer !! "1" = Some (mkRequest "Open" "/tmp/x" 0 [] "")
  /\ fst (@Request_close demoBackend (mkRequest "Open" "/tmp/x" 0 [] "")
            (world demoServer))
     = Some (Errno syscall.EIO)
  /\ openRequests (fst (dispatch demoServer (sshFxpClosePacket 9 "1")))
       !! "1" = None
  /\ snd (dispatch demoServer (sshFxpClosePacket 9 "1"))
     = inl (sshFxpStatusResponse 9 sshFxOk "")
  /\ statusFromError (sshFxpClosePacket 9 "1") (Some (Errno syscall.EIO))
     = sshFxpStatusResponse 9 sshFxFailure (Error (Errno syscall.EIO))
  /\ sshFxpStatusResponse 9 sshFxOk ""
     <> statusFromError (sshFxpClosePacket 9 "1")
          (Some (Errno syscall.EIO)).
Proof.
  split; [exact demoServer_open|]. split; [reflexivity|].
  assert (Hd : dispatch demoServer (sshFxpClosePacket 9 "1")
               = (closeRequest demoServer "1",
                  inl (sshFxpStatusResponse 9 sshFxOk "")))
    by reflexivity.
  rewrite Hd. unfold closeRequest. rewrite demoServer_open.
  cbn [Request_close demoBackend fst snd openRequests].
  split; [apply lookup_delete_eq|]. split; [reflexivity|].
  split; [reflexivity | discriminate].
Qed.

Lemma close_removes_handle_witness :
  openRequests demoServer !! "1" = Some (mkRequest "Open" "/tmp/x" 0 [] "")
  /\ openRequests (fst (dispatch demoServer (sshFxpClosePacket 9 "1")))
     = delete "1" (openRequests demoServer)
  /\ openRequests (fst (dispatch demoServer (sshFxpClosePacket 9 "1")))
       !! "1" = None
  /\ world (fst (dispatch demoServer (sshFxpClosePacket 9 "1")))
     = snd (@Request_close demoBackend (mkRequest "Open" "/tmp/x" 0 [] "")
              (world demoServer))
  /\ snd (dispatch demoServer (sshFxpClosePacket 9 "1"))
     = inl (sshFxpStatusResponse 9 sshFxOk "").
Proof.
  split; [exact demoServer_open|].
  exact (@close_removes_handle demoBackend demoServer 9 "1" _
           demoServer_open).
Defined.

Lemma fstat_as_stat_witness :
  openRequests demoServer !! "1" = Some (mkRequest "Open" "/tmp/x" 0 [] "")
  /\ (dispatch demoServer (sshFxpFstatPacket 4 "1")
      = dispatch demoServer (sshFxpStatPacket 4 "/tmp/x")
      /\ handled (fst (dispatch demoServer (sshFxpFstatPacket 4 "1")))
         = handled demoServer ++ [mkRequest "Stat" "/tmp/x" 0 [] ""])
  /\ (dispatch demoServer (sshFxpFsetstatPacket 4 "1" 4 [])
      = dispatch demoServer (sshFxpSetstatPacket 4 "/tmp/x" 4 [])
      /\ handled (fst (dispatch demoServer
                         (sshFxpFsetstatPacket 4 "1" 4 [])))
         = handled demoServer ++ [mkRequest "Setstat" "/tmp/x" 4 [] ""]).
Proof.
  split; [exact demoServer_open|].
  destruct (@fstat_as_stat demoBackend demoServer 4 "1" 4 [] _
              demoServer_open)
    as [(Hd1 & _ & Hh1 & _) (Hd2 & _ & Hh2 & _)].
  split; split; assumption.
Defined.

(** C5 as stated fails once the counter has gone round: the first OPEN
    of a connection is answered with handle ["1"], and after
    [2 ^ intSize - 1] further allocations the next OPEN is answered with
    handle ["1"] again. *)
Lemma handle_issued_twice :
  snd (dispatch (@NewRequestServer demoBackend [])
         (sshFxpOpenPacket 1 "/tmp/x" 1 0))
  = inl (sshFxpHandlePacket 1 "1")
  /\ snd (dispatch
            (allocations (Z.to_N (2 ^ intSize - 1))
               (mkRequest "Open" "/tmp/x" 0 [] "") demoServer)
            (sshFxpOpenPacket 9 "/tmp/y" 1 0))
     = inl (sshFxpHandlePacket 9 "1").
Proof.
  split; [reflexivity|].
  rewrite dispatch_opener by reflexivity. cbn [snd id].
  rewrite nextRequest_handle, allocations_handleCount.
  reflexivity.
Qed.

Lemma handles_distinct_witness :
  isOpener (sshFxpOpenPacket 1 "/a" 1 0) = true
  /\ isOpener (sshFxpOpendirPacket 3 "/") = true
  /\ openerCount [sshFxpClosePacket 2 "1"; sshFxpOpendirPacket 5 "/b"]
     < 2 ^ intSize - 1
  /\ exists h1 h2,
       snd (dispatch (@NewRequestServer demoBackend [])
              (sshFxpOpenPacket 1 "/a" 1 0))
       = inl (sshFxpHandlePacket (id (sshFxpOpenPacket 1 "/a" 1 0)) h1)
       /\ snd (dispatch
                 (fst (packetWorker (@NewRequestServer demoBackend [])
                         [sshFxpOpenPacket 1 "/a" 1 0;
                          sshFxpClosePacket 2 "1";
                          sshFxpOpendirPacket 5 "/b"]))
                 (sshFxpOpendirPacket 3 "/"))
          = inl (sshFxpHandlePacket (id (sshFxpOpendirPacket 3 "/")) h2)
       /\ h1 = Itoa (wrapInt
                       (handleCount (@NewRequestServer demoBackend []) + 1))
       /\ h1 <> "" /\ h2 <> "" /\ h1 <> h2.
Proof.
  split; [reflexivity|]. split; [reflexivity|].
  assert (Hlen : openerCount
                   [sshFxpClosePacket 2 "1"; sshFxpOpendirPacket 5 "/b"]
                 < 2 ^ intSize - 1) by (vm_compute; reflexivity).
  split; [exact Hlen|].
  exact (@handles_distinct demoBackend (@NewRequestServer demoBackend [])
           (sshFxpOpenPacket 1 "/a" 1 0) (sshFxpOpendirPacket 3 "/")
           [sshFxpClosePacket 2 "1"; sshFxpOpendirPacket 5 "/b"]
           eq_refl eq_refl Hlen).
Defined.

Lemma opener_replies_handle_witness :
  isOpener (sshFxpOpenPacket 6 "/no/such/file" 1 0) = true
  /\ dispatch demoServer (sshFxpOpenPacket 6 "/no/such/file" 1 0)
     = (fst (nextRequest demoServer
               (@requestFromPacket demoBackend
                  (sshFxpOpenPacket 6 "/no/such/file" 1 0))),
        inl (sshFxpHandlePacket 6 "2"))
  /\ handled (fst (dispatch demoServer
                     (sshFxpOpenPacket 6 "/no/such/file" 1 0)))
     = handled demoServer
  /\ world (fst (dispatch demoServer
                   (sshFxpOpenPacket 6 "/no/such/file" 1 0)))
     = world demoServer
  /\ openRequests demoServer !! "2" = None.
Proof.
  split; [reflexivity|].
  destruct (@opener_replies_handle demoBackend demoServer
              (sshFxpOpenPacket 6 "/no/such/file" 1 0) eq_refl)
    as (Hd & _ & _ & Hh & Hw & Hfresh).
  split; [exact Hd|]. split; [exact Hh|]. split; [exact Hw|].
  apply (Hfresh [] [sshFxpOpenPacket 1 "/tmp/x" 1 0] eq_refl).
  vm_compute. reflexivity.
Defined.

Lemma wrappedServer_next :
  Itoa (wrapInt (handleCount wrappedServer + 1)) = "1".
Proof.
  unfold wrappedServer. rewrite allocations_handleCount. reflexivity.
Qed.

(** C9 as stated fails once the counter has gone round: on
    [wrappedServer] handle ["1"] is still open on ["/tmp/x"], yet the
    next OPEN is answered with handle ["1"], which is not freshly
    allocated, and the table entry of ["1"] is overwritten with the new
    request. *)
Lemma open_reuses_open_handle :
  openRequests wrappedServer !! "1"
  = Some (mkRequest "Open" "/tmp/x" 0 [] "")
  /\ snd (dispatch wrappedServer (sshFxpOpenPacket 9 "/tmp/y" 1 0))
     = inl (sshFxpHandlePacket 9 "1")
  /\ openRequests
       (fst (dispatch wrappedServer (sshFxpOpenPacket 9 "/tmp/y" 1 0)))
       !! "1"
     = Some (mkRequest "Open" "/tmp/y" 0 [] "").
Proof.
  split; [exact (allocations_lookup _ _ _ _ demoServer_open)|].
  exact (dispatch_opener_binds wrappedServer
           (sshFxpOpenPacket 9 "/tmp/y" 1 0) "1" eq_refl
           wrappedServer_next).
Qed.

(** * Further properties *)

(** ** Errors of [ls_unix.go] *)

(** Only the absence of an error is reported as OK: the POSIX
    translation answers OK for errno 0 alone, the Plan 9 one for the
    empty error string alone. *)
Theorem translateErrno_ok_iff (e : Z) (s : string) :
  (translateErrno e = sshFxOk <-> e = 0)
  /\ (plan9.translateErrno s = sshFxOk <-> s = "").
Proof.
  split; split.
  - unfold translateErrno.
    destruct (Z.eqb_spec e 0); [auto|].
    destruct (e =? syscall.ENOENT); [discriminate|].
    destruct ((e =? syscall.EACCES) || (e =? syscall.EPERM)); discriminate.
  - intros ->. reflexivity.
  - unfold plan9.translateErrno.
    destruct (String.eqb_spec s ""); [auto|].
    destruct (String.eqb s plan9.ENOENT); [discriminate|].
    destruct (String.eqb s plan9.EPERM); discriminate.
  - intros ->. reflexivity.
Qed.


(** ** Mode conversion on arbitrary modes *)

Lemma land_land_sub (m M K : Z) :
  Z.land M K = K -> Z.land (Z.land m M) K = Z.land m K.
Proof. intros H. rewrite <- Z.land_assoc, H. reflexivity. Qed.

Lemma land_low16_range (m : Z) : 0 <= Z.land m 0xFFFF < 65536.
Proof.
  change 0xFFFF with (Z.ones 16). rewrite Z.land_ones by lia.
  pose proof (Z.mod_pos_bound m (2 ^ 16) ltac:(lia)). lia.
Qed.

Lemma toFileMode_low16 (m : Z) : toFileMode (Z.land m 0xFFFF) = toFileMode m.
Proof.
  unfold toFileMode.
  rewrite (land_land_sub m 0xFFFF 0x1FF) by reflexivity.
  rewrite (land_land_sub m 0xFFFF S_IFMT) by reflexivity.
  rewrite (land_land_sub m 0xFFFF syscall.S_ISUID) by reflexivity.
  rewrite (land_land_sub m 0xFFFF syscall.S_ISGID) by reflexivity.
  rewrite (land_land_sub m 0xFFFF syscall.S_ISVTX) by reflexivity.
  reflexivity.
Qed.

Lemma low16_all (P : Z -> bool) :
  forallb P (upto (Z.to_nat 65536) 0) = true ->
  forall m, P (Z.land m 0xFFFF) = true.
Proof.
  intros Hall m. apply (forallb_range P 65536 Hall).
  apply land_low16_range.
Qed.

(** [toFileMode] looks at the low 16 bits of the mode only, and whatever
    the mode, its result is a well-formed file mode: permission and
    setuid/setgid/sticky bits with one supported file type. *)
Theorem toFileMode_valid (m : Z) :
  toFileMode m = toFileMode (Z.land m 0xFFFF)
  /\ validFileMode (toFileMode m) = true.
Proof.
  split; [symmetry; apply toFileMode_low16|].
  rewrite <- toFileMode_low16.
  apply (low16_all (fun n => validFileMode (toFileMode n))).
  vm_compute. reflexivity.
Qed.

Lemma hasSupportedIFMT_low16 (m : Z) :
  hasSupportedIFMT (Z.land m 0xFFFF) = hasSupportedIFMT m.
Proof.
  unfold hasSupportedIFMT.
  rewrite (land_land_sub m 0xFFFF S_IFMT) by reflexivity. reflexivity.
Qed.

(** A POSIX mode taken to a file mode and back keeps its permission,
    setuid, setgid, sticky and type bits when its [S_IFMT] type is a
    supported one (bits above the low 16 are dropped); with any other
    [S_IFMT] value it comes back as a regular file with the same
    permission and special bits. *)
Theorem fromFileMode_toFileMode (m : Z) :
  fromFileMode (toFileMode m)
  = if hasSupportedIFMT m then Z.land m 0xFFFF
    else Z.lor (Z.land m 0xFFF) syscall.S_IFREG.
Proof.
  rewrite <- toFileMode_low16, <- hasSupportedIFMT_low16.
  rewrite <- (land_land_sub m 0xFFFF 0xFFF eq_refl).
  rewrite <- (land_land_sub m 0xFFFF 0xFFFF eq_refl) at 3.
  apply Z.eqb_eq.
  apply (low16_all
           (fun n => fromFileMode (toFileMode n)
                     =? (if hasSupportedIFMT n then Z.land n 0xFFFF
                         else Z.lor (Z.land n 0xFFF) syscall.S_IFREG))).
  vm_compute. reflexivity.
Qed.

(** [isRegular] agrees with the file mode [toFileMode] builds, except on
    the [S_IFMT] values [toFileMode] does not know: the file mode has no
    type bit (it is a regular file for [io/fs]) exactly when the mode is
    regular or its type is unsupported. *)
Theorem isRegular_toFileMode (m : Z) :
  (Z.land (toFileMode m) fs.ModeType =? 0)
  = isRegular m || negb (hasSupportedIFMT m).
Proof.
  rewrite <- toFileMode_low16, <- hasSupportedIFMT_low16.
  assert (Hr : isRegular (Z.land m 0xFFFF) = isRegular m).
  { unfold isRegular.
    rewrite (land_land_sub m 0xFFFF S_IFMT) by reflexivity. reflexivity. }
  rewrite <- Hr.
  apply Bool.eqb_prop.
  apply (low16_all
           (fun n => Bool.eqb (Z.land (toFileMode n) fs.ModeType =? 0)
                       (isRegular n || negb (hasSupportedIFMT n)))).
  vm_compute. reflexivity.
Qed.

Lemma land_orBits (fm : Z) (ks : list Z) :
  Forall (fun k => 0 <= k) ks ->
  exists bs,
    length bs = length ks
    /\ Z.land fm (orBits (repeat true (length ks)) (map (Z.shiftl 1) ks))
       = orBits bs (map (Z.shiftl 1) ks).
Proof.
  intros Hks. induction Hks as [|k ks Hk Hks (bs & Hlen & IH)].
  - exists []. split; [reflexivity|]. simpl. apply Z.land_0_r.
  - cbn [length repeat map orBits]. rewrite Z.land_lor_distr_r, IH.
    destruct (land_bit_cases fm k Hk) as [H0 | H1].
    + exists (false :: bs). split; [simpl; lia|]. rewrite H0. reflexivity.
    + exists (true :: bs). split; [simpl; lia|]. rewrite H1. reflexivity.
Qed.

Lemma In_allBools (bs : list bool) : In bs (allBools (length bs)).
Proof.
  induction bs as [|b bs IH]; simpl; [auto|].
  apply in_flat_map. exists bs. split; [exact IH|].
  destruct b; simpl; auto.
Qed.

Lemma fileModeHigh_all (P : Z -> bool) :
  forallb (fun bs => P (orBits bs fileModeHighBits)) (allBools 10) = true ->
  forall fm, P (Z.land fm fileModeHigh) = true.
Proof.
  intros Hall fm.
  destruct (land_orBits fm [19; 20; 21; 22; 23; 24; 25; 26; 27; 31])
    as (bs & Hlen & Hbs).
  { repeat constructor; lia. }
  change (Z.land fm fileModeHigh = orBits bs fileModeHighBits) in Hbs.
  rewrite Hbs. rewrite forallb_forall in Hall. apply Hall.
  change 10%nat with (length [19; 20; 21; 22; 23; 24; 25; 26; 27; 31]).
  rewrite <- Hlen. apply In_allBools.
Qed.

Lemma fileModeHighCheck_all (fm : Z) :
  fileModeHighCheck (Z.land fm fileModeHigh) = true.
Proof. apply (fileModeHigh_all fileModeHighCheck). vm_compute. reflexivity. Qed.

Ltac split_ifs :=
  repeat match goal with
         | |- context [if ?c then _ else _] => destruct c
         end.

(** The permission bits pass through both conversions untouched. *)
Lemma fromFileMode_split (fm : Z) :
  fromFileMode fm
  = Z.lor (Z.land fm fs.ModePerm) (fromFileMode (Z.land fm fileModeHigh)).
Proof.
  unfold fromFileMode.
  rewrite <- (Z.land_assoc fm fileModeHigh fs.ModePerm).
  change (Z.land fileModeHigh fs.ModePerm) with 0. rewrite Z.land_0_r.
  rewrite (land_land_sub fm fileModeHigh fs.ModeType) by reflexivity.
  rewrite (land_land_sub fm fileModeHigh fs.ModeSetuid) by reflexivity.
  rewrite (land_land_sub fm fileModeHigh fs.ModeSetgid) by reflexivity.
  rewrite (land_land_sub fm fileModeHigh fs.ModeSticky) by reflexivity.
  cbv zeta. split_ifs; rewrite ?Z.lor_0_l, ?Z.lor_0_r, ?Z.lor_assoc;
    reflexivity.
Qed.

Lemma toFileMode_split (m : Z) :
  toFileMode m = Z.lor (Z.land m 0x1FF) (toFileMode (Z.land m 0xFE00)).
Proof.
  unfold toFileMode.
  rewrite <- (Z.land_assoc m 0xFE00 0x1FF).
  change (Z.land 0xFE00 0x1FF) with 0. rewrite Z.land_0_r.
  rewrite (land_land_sub m 0xFE00 S_IFMT) by reflexivity.
  rewrite (land_land_sub m 0xFE00 syscall.S_ISUID) by reflexivity.
  rewrite (land_land_sub m 0xFE00 syscall.S_ISGID) by reflexivity.
  rewrite (land_land_sub m 0xFE00 syscall.S_ISVTX) by reflexivity.
  cbv zeta. split_ifs; rewrite ?Z.lor_0_l, ?Z.lor_0_r, ?Z.lor_assoc;
    reflexivity.
Qed.

Lemma fromFileMode_high (fm : Z) :
  let H := fromFileMode (Z.land fm fileModeHigh) in
  Z.land H 0xFE00 = H
  /\ (if hasSupportedFileType fm then hasSupportedIFMT H = true
      else Z.land H S_IFMT = 0)
  /\ toFileMode H
     = Z.lor (Z.land fm (Z.lor fs.ModeSetuid
                           (Z.lor fs.ModeSetgid fs.ModeSticky)))
         (if hasSupportedFileType fm then Z.land fm fs.ModeType else 0).
Proof.
  pose proof (fileModeHighCheck_all fm) as Hc. unfold fileModeHighCheck in Hc.
  apply andb_prop in Hc as [Hc H3]. apply andb_prop in Hc as [H1 H2].
  apply Z.eqb_eq in H1, H3.
  assert (Hs : hasSupportedFileType (Z.land fm fileModeHigh)
               = hasSupportedFileType fm).
  { unfold hasSupportedFileType.
    rewrite (land_land_sub fm fileModeHigh fs.ModeType) by reflexivity.
    reflexivity. }
  rewrite Hs in H2, H3.
  rewrite (land_land_sub fm fileModeHigh fs.ModeType) in H3 by reflexivity.
  rewrite <- (Z.land_assoc fm fileModeHigh fileModeFlags) in H3.
  change (Z.land fileModeHigh fileModeFlags)
    with (Z.lor fs.ModeSetuid (Z.lor fs.ModeSetgid fs.ModeSticky)) in H3.
  cbv zeta. split; [exact H1|]. split; [|exact H3].
  destruct (hasSupportedFileType fm); [exact H2|].
  apply Z.eqb_eq. exact H2.
Qed.

Lemma lor_land_low (p H M : Z) :
  Z.land p M = p -> Z.land H M = 0 -> Z.land (Z.lor p H) M = p.
Proof.
  intros Hp HH. rewrite Z.land_lor_distr_l, Hp, HH. apply Z.lor_0_r.
Qed.

Lemma lor_land_high (p H M : Z) :
  Z.land p M = 0 -> Z.land H M = H -> Z.land (Z.lor p H) M = H.
Proof.
  intros Hp HH. rewrite Z.land_lor_distr_l, Hp, HH. apply Z.lor_0_l.
Qed.

Lemma land_land_keep (m A M : Z) :
  Z.land A M = A -> Z.land (Z.land m A) M = Z.land m A.
Proof. intros H. rewrite <- Z.land_assoc, H. reflexivity. Qed.

Lemma land_disjoint (m A B : Z) : Z.land A B = 0 -> Z.land (Z.land m A) B = 0.
Proof. intros H. rewrite <- Z.land_assoc, H. apply Z.land_0_r. Qed.

(** [fromFileMode] looks only at the permission, setuid, setgid, sticky
    and type bits of the file mode (append-only, exclusive and temporary
    are ignored).  Its result fits in the low 16 bits; it is a valid POSIX
    mode when the file type is one of the supported ones, and has an
    empty [S_IFMT] field for any other combination of type bits. *)
Theorem fromFileMode_range (fm : Z) :
  fromFileMode fm = fromFileMode (Z.land fm fileModeBits)
  /\ Z.land (fromFileMode fm) 0xFFFF = fromFileMode fm
  /\ (if hasSupportedFileType fm then validPosixMode (fromFileMode fm) = true
      else Z.land (fromFileMode fm) S_IFMT = 0).
Proof.
  destruct (fromFileMode_high fm) as (H1 & H2 & _).
  assert (Hp : forall M, Z.land fs.ModePerm M = fs.ModePerm ->
                 Z.land (Z.land fm fs.ModePerm) M = Z.land fm fs.ModePerm).
  { intros M HM. apply land_land_keep. exact HM. }
  assert (H16 : Z.land (fromFileMode fm) 0xFFFF = fromFileMode fm).
  { rewrite fromFileMode_split, Z.land_lor_distr_l.
    rewrite (Hp 0xFFFF eq_refl).
    rewrite <- H1 at 1.
    rewrite (land_land_keep _ 0xFE00 0xFFFF) by reflexivity.
    rewrite H1. reflexivity. }
  assert (Hfield : Z.land (fromFileMode fm) S_IFMT
                   = Z.land (fromFileMode (Z.land fm fileModeHigh)) S_IFMT).
  { rewrite fromFileMode_split, Z.land_lor_distr_l.
    rewrite (land_disjoint fm fs.ModePerm S_IFMT) by reflexivity.
    apply Z.lor_0_l. }
  split; [|split; [exact H16|]].
  - rewrite (fromFileMode_split (Z.land fm fileModeBits)).
    rewrite (land_land_sub fm fileModeBits fs.ModePerm) by reflexivity.
    rewrite (land_land_sub fm fileModeBits fileModeHigh) by reflexivity.
    apply fromFileMode_split.
  - destruct (hasSupportedFileType fm).
    + unfold validPosixMode. change posixModeBits with 0xFFFF.
      rewrite H16, Z.eqb_refl. cbn [andb].
      unfold hasSupportedIFMT in H2. rewrite Hfield. exact H2.
    + rewrite Hfield. exact H2.
Qed.

(** A file mode taken to a POSIX mode and back keeps its permission,
    setuid, setgid and sticky bits.  Its type bits come back unchanged
    when they are one of the supported types; any other combination of
    type bits (irregular files included) comes back without a type, that
    is as a regular file.  Append-only, exclusive and temporary are lost. *)
Theorem toFileMode_fromFileMode (fm : Z) :
  toFileMode (fromFileMode fm)
  = Z.lor (Z.land fm fileModeFlags)
      (if hasSupportedFileType fm then Z.land fm fs.ModeType else 0).
Proof.
  destruct (fromFileMode_high fm) as (H1 & _ & H3).
  set (H := fromFileMode (Z.land fm fileModeHigh)) in *.
  assert (Hlow : Z.land H 0x1FF = 0).
  { rewrite <- H1. apply land_disjoint. reflexivity. }
  rewrite fromFileMode_split. fold H. rewrite toFileMode_split.
  rewrite (lor_land_low (Z.land fm fs.ModePerm) H 0x1FF);
    [| apply land_land_keep; reflexivity | exact Hlow].
  rewrite (lor_land_high (Z.land fm fs.ModePerm) H 0xFE00);
    [| apply land_disjoint; reflexivity | exact H1].
  rewrite H3, Z.lor_assoc. f_equal.
  unfold fileModeFlags.
  rewrite (Z.land_lor_distr_r fm fs.ModePerm). reflexivity.
Qed.

(** ** The Plan 9 sibling *)

(** On Plan 9 too, wrapping an error with its path leaves its translation
    as it was, and wrapping twice is wrapping once. *)
Theorem plan9_wrapPathError_translate (filepath filepath' : string)
    (err : plan9.error) :
  plan9.translateSyscallError (plan9.wrapPathError filepath err)
  = plan9.translateSyscallError err
  /\ plan9.wrapPathError filepath' (plan9.wrapPathError filepath err)
     = plan9.wrapPathError filepath err.
Proof. destruct err; simpl; split; reflexivity. Qed.

Lemma plan9_toFileMode_low16 (m : Z) :
  plan9.toFileMode (Z.land m 0xFFFF) = plan9.toFileMode m.
Proof.
  unfold plan9.toFileMode.
  rewrite (land_land_sub m 0xFFFF 0x1FF) by reflexivity.
  rewrite (land_land_sub m 0xFFFF S_IFMT) by reflexivity.
  reflexivity.
Qed.

Lemma plan9_fromFileMode_split (fm : Z) :
  plan9.fromFileMode fm
  = Z.lor (Z.land fm fs.ModePerm)
      (plan9.fromFileMode (Z.land fm fileModeHigh)).
Proof.
  unfold plan9.fromFileMode.
  rewrite <- (Z.land_assoc fm fileModeHigh fs.ModePerm).
  change (Z.land fileModeHigh fs.ModePerm) with 0. rewrite Z.land_0_r.
  rewrite (land_land_sub fm fileModeHigh fs.ModeType) by reflexivity.
  cbv zeta. split_ifs; rewrite ?Z.lor_0_l, ?Z.lor_0_r, ?Z.lor_assoc;
    reflexivity.
Qed.

(** The Plan 9 conversions are the POSIX ones with the setuid, setgid and
    sticky bits masked off the result, in both directions. *)
Theorem plan9_conversions (m fm : Z) :
  plan9.toFileMode m
  = Z.land (toFileMode m) (Z.lor fs.ModePerm fs.ModeType)
  /\ plan9.fromFileMode fm = Z.land (fromFileMode fm) (Z.lor 0x1FF S_IFMT).
Proof.
  split.
  - rewrite <- plan9_toFileMode_low16, <- toFileMode_low16.
    apply Z.eqb_eq.
    apply (low16_all
             (fun n => plan9.toFileMode n
                       =? Z.land (toFileMode n)
                            (Z.lor fs.ModePerm fs.ModeType))).
    vm_compute. reflexivity.
  - rewrite plan9_fromFileMode_split, fromFileMode_split.
    rewrite Z.land_lor_distr_l.
    rewrite (land_land_keep fm fs.ModePerm) by reflexivity.
    f_equal. apply Z.eqb_eq.
    apply (fileModeHigh_all
             (fun h => plan9.fromFileMode h
                       =? Z.land (fromFileMode h) (Z.lor 0x1FF S_IFMT))).
    vm_compute. reflexivity.
Qed.

(** On Plan 9 a POSIX mode taken to a file mode and back loses its
    setuid, setgid and sticky bits: what comes back is the permission and
    type bits for a supported type, and a regular file with the same
    permissions for any other [S_IFMT] value. *)
Theorem plan9_fromFileMode_toFileMode (m : Z) :
  plan9.fromFileMode (plan9.toFileMode m)
  = if hasSupportedIFMT m then Z.land m (Z.lor 0x1FF S_IFMT)
    else Z.lor (Z.land m 0x1FF) syscall.S_IFREG.
Proof.
  rewrite <- plan9_toFileMode_low16, <- hasSupportedIFMT_low16.
  rewrite <- (land_land_sub m 0xFFFF 0x1FF eq_refl).
  rewrite <- (land_land_sub m 0xFFFF (Z.lor 0x1FF S_IFMT) eq_refl).
  apply Z.eqb_eq.
  apply (low16_all
           (fun n => plan9.fromFileMode (plan9.toFileMode n)
                     =? (if hasSupportedIFMT n
                         then Z.land n (Z.lor 0x1FF S_IFMT)
                         else Z.lor (Z.land n 0x1FF) syscall.S_IFREG))).
  vm_compute. reflexivity.
Qed.

(** ** The handle table *)

Section Table.
Context `{B : Backend}.

(** A handle allocated by [nextRequest] looks up the request it was
    allocated for, and no other handle is affected; closing it makes it
    unknown again and leaves the other handles as they were before the
    allocation. *)
Theorem nextRequest_getRequest (rs : RequestServer) (r : Request) :
  getRequest (fst (nextRequest rs r)) (snd (nextRequest rs r)) = (r, true)
  /\ (forall h, h <> snd (nextRequest rs r) ->
        getRequest (fst (nextRequest rs r)) h = getRequest rs h)
  /\ getRequest
       (closeRequest (fst (nextRequest rs r)) (snd (nextRequest rs r)))
       (snd (nextRequest rs r))
     = (zeroRequest, false)
  /\ (forall h, h <> snd (nextRequest rs r) ->
        getRequest
          (closeRequest (fst (nextRequest rs r)) (snd (nextRequest rs r))) h
        = getRequest rs h).
Proof.
  unfold nextRequest, getRequest, closeRequest. cbn [fst snd openRequests].
  set (h0 := Itoa (wrapInt (handleCount rs + 1))).
  rewrite lookup_insert_eq.
  destruct (Request_close r _) as [err w]. cbn [openRequests].
  split; [reflexivity|]. split.
  - intros h Hne. rewrite lookup_insert_ne by congruence. reflexivity.
  - split.
    + rewrite lookup_delete_eq. reflexivity.
    + intros h Hne. rewrite lookup_delete_ne by congruence.
      rewrite lookup_insert_ne by congruence. reflexivity.
Qed.

(** [closeRequest] forgets the handle it is given and no other, keeps the
    counter, and does nothing at all to a server that does not know the
    handle. *)
Theorem closeRequest_getRequest (rs : RequestServer) (h : string) :
  getRequest (closeRequest rs h) h = (zeroRequest, false)
  /\ (forall h', h' <> h ->
        getRequest (closeRequest rs h) h' = getRequest rs h')
  /\ handleCount (closeRequest rs h) = handleCount rs
  /\ closeRequest (closeRequest rs h) h = closeRequest rs h
  /\ (snd (getRequest rs h) = false -> closeRequest rs h = rs).
Proof.
  unfold getRequest, closeRequest.
  destruct (openRequests rs !! h) as [r|] eqn:Hl.
  - destruct (Request_close r _) as [err w]. cbn [openRequests handleCount].
    rewrite lookup_delete_eq.
    split; [reflexivity|]. split.
    + intros h' Hne. rewrite lookup_delete_ne by congruence. reflexivity.
    + split; [reflexivity|]. split; [reflexivity | discriminate].
  - rewrite Hl. repeat split; reflexivity.
Qed.

End Table.

(** ** Runs of the worker *)

Section Runs.
Context `{B : Backend}.

(** Only OPEN, OPENDIR and CLOSE change the handle table, and only OPEN
    and OPENDIR move the counter. *)
Theorem table_frame (rs : RequestServer) (pkt : requestPacket) :
  openRequests (fst (dispatch rs pkt))
  = (match pkt with
     | sshFxpClosePacket _ h => delete h (openRequests rs)
     | _ =>
         if isOpener pkt
         then <[Itoa (wrapInt (handleCount rs + 1)) := requestFromPacket pkt]>
                (openRequests rs)
         else openRequests rs
     end)
  /\ handleCount (fst (dispatch rs pkt))
     = (if isOpener pkt then wrapInt (handleCount rs + 1)
        else handleCount rs).
Proof. split; [apply dispatch_openRequests | apply dispatch_handleCount]. Qed.

Lemma dispatch_close (rs : RequestServer) (i : Z) (h : string) :
  dispatch rs (sshFxpClosePacket i h)
  = (closeRequest rs h, inl (sshFxpStatusResponse i sshFxOk "")).
Proof. reflexivity. Qed.

Lemma closeRequest_lookup (rs : RequestServer) (h : string) :
  openRequests (closeRequest rs h) !! h = None.
Proof.
  unfold closeRequest. destruct (openRequests rs !! h) as [r|] eqn:Hl.
  - destruct (Request_close r _). apply lookup_delete_eq.
  - exact Hl.
Qed.

Lemma closeRequest_unknown (rs : RequestServer) (h : string) :
  openRequests rs !! h = None -> closeRequest rs h = rs.
Proof. intros Hl. unfold closeRequest. rewrite Hl. reflexivity. Qed.

(** After a CLOSE of a handle, whether the handle was open or not, a
    request on that handle is refused with the EBADF status and reaches
    no handler, and a second CLOSE of it is answered OK and changes
    nothing. *)
Theorem use_after_close (rs : RequestServer) (i j : Z) (h : string)
    (pkt : requestPacket) :
  bearsHandle pkt = Some h ->
  dispatch (fst (dispatch rs (sshFxpClosePacket i h))) pkt
  = (fst (dispatch rs (sshFxpClosePacket i h)),
     inl (sshFxpStatusResponse (id pkt) sshFxFailure
            (Error (Errno syscall.EBADF))))
  /\ dispatch (fst (dispatch rs (sshFxpClosePacket i h)))
       (sshFxpClosePacket j h)
     = (fst (dispatch rs (sshFxpClosePacket i h)),
        inl (sshFxpStatusResponse j sshFxOk ""))
  /\ sent (fst (packetWorker rs [sshFxpClosePacket i h; pkt]))
     = sent rs
       ++ [ sshFxpStatusResponse i sshFxOk "";
            sshFxpStatusResponse (id pkt) sshFxFailure
              (Error (Errno syscall.EBADF)) ].
Proof.
  intros Hh. rewrite dispatch_close. cbn [fst].
  pose proof (closeRequest_lookup rs h) as Hl.
  pose proof (dispatch_unknown_handle _ pkt h Hh Hl) as Hd.
  split; [exact Hd|]. split.
  - rewrite dispatch_close, (closeRequest_unknown _ _ Hl). reflexivity.
  - rewrite (packetWorker_cons _ _ _ _ _ (dispatch_close rs i h)).
    set (rs1 := fst (sendPacket (closeRequest rs h) _)).
    rewrite (packetWorker_cons _ _ [] _ _
               (dispatch_unknown_handle rs1 pkt h Hh Hl)).
    cbn [packetWorker fst sendPacket sent]. subst rs1.
    cbn [packetWorker fst sendPacket sent].
    rewrite closeRequest_sent, <- app_assoc. reflexivity.
Qed.

(** Serving two batches of packets one after the other is serving their
    concatenation, except that an error in the first batch ends the
    worker. *)
Theorem packetWorker_app (rs : RequestServer)
    (pkts1 pkts2 : list requestPacket) :
  packetWorker rs (pkts1 ++ pkts2)
  = match packetWorker rs pkts1 with
    | (rs', None) => packetWorker rs' pkts2
    | (rs', Some err) => (rs', Some err)
    end.
Proof.
  revert rs. induction pkts1 as [|pkt pkts1 IH]; intros rs; [reflexivity|].
  cbn [app packetWorker].
  destruct (dispatch rs pkt) as [rs' [rpkt | err]]; [|reflexivity].
  cbn [sendPacket]. apply IH.
Qed.

Lemma dispatch_inr (rs : RequestServer) (pkt : requestPacket) :
  matchesCase pkt = false ->
  dispatch rs pkt = (rs, inr (errorString "unexpected packet type")).
Proof. intros Hm. destruct pkt; try discriminate Hm. reflexivity. Qed.

Lemma packetWorker_served (pkts : list requestPacket) :
  forall rs : RequestServer,
  fst (packetWorker rs pkts) = fst (packetWorker rs (servedPrefix pkts))
  /\ snd (packetWorker rs (servedPrefix pkts)) = None
  /\ snd (packetWorker rs pkts)
     = (if forallb matchesCase pkts then None
        else Some (errorString "unexpected packet type"))
  /\ exists replies,
       length replies = length (servedPrefix pkts)
       /\ sent (fst (packetWorker rs pkts)) = sent rs ++ replies.
Proof.
  induction pkts as [|pkt pkts IH]; intros rs.
  - simpl. repeat split. exists []. rewrite app_nil_r. split; reflexivity.
  - cbn [servedPrefix forallb]. destruct (matchesCase pkt) eqn:Hm.
    + destruct (dispatch_replies rs pkt Hm) as (rs' & rpkt & Hd).
      rewrite !(packetWorker_cons _ _ _ _ _ Hd).
      destruct (IH (fst (sendPacket rs' rpkt)))
        as (H1 & H2 & H3 & replies & Hlen & Hsent).
      split; [exact H1|]. split; [exact H2|]. split; [exact H3|].
      exists (rpkt :: replies). split; [simpl; congruence|].
      rewrite Hsent. cbn [sendPacket fst sent].
      pose proof (dispatch_sent rs pkt) as Hs. rewrite Hd in Hs.
      cbn [fst] in Hs. rewrite Hs, <- app_assoc. reflexivity.
    + rewrite (packetWorker_stop _ _ _ _ _ (dispatch_inr rs pkt Hm)).
      simpl. repeat split. exists []. rewrite app_nil_r. split; reflexivity.
Qed.

(** The worker ends with an error exactly when some packet matches no
    case of its type switch.  It then has served the packets before the
    first such packet and nothing after it: one reply was sent for each
    served packet, after the replies sent before, and the server is the
    one the served packets alone leave. *)
Theorem packetWorker_outcome (rs : RequestServer)
    (pkts : list requestPacket) :
  snd (packetWorker rs pkts)
  = (if forallb matchesCase pkts then None
     else Some (errorString "unexpected packet type"))
  /\ packetWorker rs (servedPrefix pkts)
     = (fst (packetWorker rs pkts), None)
  /\ exists replies,
       length replies = length (servedPrefix pkts)
       /\ sent (fst (packetWorker rs pkts)) = sent rs ++ replies.
Proof.
  destruct (packetWorker_served pkts rs) as (H1 & H2 & H3 & H4).
  split; [exact H3|]. split; [|exact H4].
  rewrite H1, <- H2. apply surjective_pairing.
Qed.

Lemma servedPrefix_all (pkts : list requestPacket) :
  forallb matchesCase pkts = true -> servedPrefix pkts = pkts.
Proof.
  induction pkts as [|pkt pkts IH]; [reflexivity|]. cbn [forallb servedPrefix].
  intros [Hm Hall]%andb_prop. rewrite Hm, (IH Hall). reflexivity.
Qed.

Lemma packetWorker_count (pkts : list requestPacket) :
  forall rs : RequestServer,
  0 <= handleCount rs ->
  handleCount rs + Z.of_nat (length pkts) < 2 ^ (intSize - 1) ->
  handleCount (fst (packetWorker rs pkts))
  = handleCount rs + openerCount (servedPrefix pkts).
Proof.
  induction pkts as [|pkt pkts IH]; intros rs H0 Hlen.
  - simpl. lia.
  - simpl length in Hlen. cbn [servedPrefix].
    pose proof (dispatch_handleCount rs pkt) as Hc.
    rewrite wrapInt_small in Hc
      by (change (2 ^ (intSize - 1)) with 9223372036854775808 in *; lia).
    destruct (matchesCase pkt) eqn:Hm.
    + destruct (dispatch_replies rs pkt Hm) as (rs' & rpkt & Hd).
      rewrite Hd in Hc. cbn [fst] in Hc.
      rewrite (packetWorker_cons _ _ _ _ _ Hd), IH;
        cbn [sendPacket fst handleCount openerCount];
        rewrite Hc; destruct (isOpener pkt); lia.
    + destruct (dispatch_unmatched rs pkt pkts Hm) as (err & _ & Hw).
      rewrite Hw. simpl. lia.
Qed.

(** On a new server the handles are the numbers of the opens: after any
    packets that the worker serves, the next OPEN or OPENDIR is answered
    with the decimal rendering of one more than the number of OPEN and
    OPENDIR packets served so far. *)
Theorem handles_count_opens (w : World) (pkts : list requestPacket)
    (p : requestPacket) :
  isOpener p = true ->
  forallb matchesCase pkts = true ->
  Z.of_nat (length pkts) < 2 ^ (intSize - 1) - 1 ->
  snd (dispatch (fst (packetWorker (NewRequestServer w) pkts)) p)
  = inl (sshFxpHandlePacket (id p) (Itoa (openerCount pkts + 1))).
Proof.
  intros Ho Hall Hlen.
  rewrite (dispatch_opener _ p Ho). cbn [snd].
  rewrite nextRequest_handle, packetWorker_count, (servedPrefix_all _ Hall);
    cbn [NewRequestServer handleCount]; try lia.
  pose proof (openerCount_nonneg pkts) as Hnn.
  assert (Hle : openerCount pkts <= Z.of_nat (length pkts)).
  { clear. induction pkts as [|pkt pkts IH]; [simpl; lia|].
    cbn [openerCount length]. destruct (isOpener pkt); lia. }
  rewrite wrapInt_small
    by (change (2 ^ (intSize - 1)) with 9223372036854775808 in *; lia).
  reflexivity.
Qed.

Lemma dispatch_keeps_handle (rs : RequestServer) (pkt : requestPacket)
    (k : Z) (r : Request) :
  openRequests rs !! Itoa k = Some r ->
  1 <= k <= handleCount rs ->
  handleCount rs + 1 < 2 ^ (intSize - 1) ->
  closesHandle (Itoa k) pkt = false ->
  openRequests (fst (dispatch rs pkt)) !! Itoa k = Some r
  /\ handleCount rs <= handleCount (fst (dispatch rs pkt))
     <= handleCount rs + 1.
Proof.
  intros Hl Hk Hlen Hc.
  pose proof (dispatch_handleCount rs pkt) as Hcount.
  pose proof (dispatch_openRequests rs pkt) as Htab.
  rewrite wrapInt_small in Hcount, Htab
    by (change (2 ^ (intSize - 1)) with 9223372036854775808 in *; lia).
  assert (Hne : Itoa (handleCount rs + 1) <> Itoa k).
  { intros Heq%Itoa_inj. lia. }
  split; [|destruct (isOpener pkt); lia].
  rewrite Htab.
  destruct pkt; cbn [isOpener];
    try exact Hl;
    try (rewrite lookup_insert_ne by exact Hne; exact Hl).
  cbn [closesHandle] in Hc. apply String.eqb_neq in Hc.
  rewrite lookup_delete_ne by congruence. exact Hl.
Qed.

(** An open handle stays bound to its request until it is closed: no
    packet other than a CLOSE of that handle removes or rebinds it, as
    long as the counter does not wrap around. *)
Theorem handle_stays_bound (rs : RequestServer) (k : Z) (r : Request)
    (pkts : list requestPacket) :
  openRequests rs !! Itoa k = Some r ->
  1 <= k <= handleCount rs ->
  handleCount rs + Z.of_nat (length pkts) < 2 ^ (intSize - 1) ->
  forallb (fun pkt => negb (closesHandle (Itoa k) pkt)) pkts = true ->
  openRequests (fst (packetWorker rs pkts)) !! Itoa k = Some r.
Proof.
  revert rs. induction pkts as [|pkt pkts IH]; intros rs Hl Hk Hlen Hall.
  - exact Hl.
  - cbn [forallb] in Hall. apply andb_prop in Hall as [Hc Hall].
    apply negb_true_iff in Hc. simpl length in Hlen.
    destruct (dispatch_keeps_handle rs pkt k r Hl Hk ltac:(lia) Hc)
      as [Hl' Hk'].
    destruct (dispatch rs pkt) as [rs' [rpkt | err]] eqn:Hd;
      cbn [fst] in Hl', Hk'.
    + rewrite (packetWorker_cons _ _ _ _ _ Hd).
      apply IH; cbn [sendPacket fst openRequests handleCount];
        [exact Hl' | lia | lia | exact Hall].
    + rewrite (packetWorker_stop _ _ _ _ _ Hd). exact Hl'.
Qed.

(** Every reply the worker builds by itself (the status of CLOSE and of
    a request on an unknown handle, the handle of OPEN and OPENDIR, the
    name of REALPATH) carries the id of the request it answers. *)
Theorem reply_carries_id (rs : RequestServer) (pkt : requestPacket) :
  isInit pkt = false ->
  is_Some (fixedShape rs pkt) ->
  exists rs' rpkt,
    dispatch rs pkt = (rs', inl rpkt) /\ replyID rpkt = Some (id pkt).
Proof.
  intros Hi [shape Hs].
  destruct pkt; try discriminate Hi; cbn in Hs; try discriminate Hs;
    try (eexists _, _; split; reflexivity);
    destruct (openRequests rs !! Handle) eqn:Hl; try discriminate Hs;
    cbn; unfold getRequest; rewrite Hl;
    eexists _, _; split; reflexivity.
Qed.

Lemma openerCount_servedPrefix (pkts : list requestPacket) :
  0 <= openerCount (servedPrefix pkts) <= openerCount pkts
  /\ openerCount pkts <= Z.of_nat (length pkts).
Proof.
  induction pkts as [|pkt pkts IH]; [simpl; lia|].
  cbn [servedPrefix openerCount length].
  destruct (matchesCase pkt); cbn [openerCount];
    destruct (isOpener pkt); lia.
Qed.

(** A handle the server never issued is never accepted: on a server
    reached from a new one, a request on a handle that is not the
    decimal rendering of a number from 1 to the number of OPEN and
    OPENDIR packets so far is refused with the EBADF status, and the
    server is unchanged. *)
Theorem unissued_handle_rejected (w : World) (pkts : list requestPacket)
    (pkt : requestPacket) (h : string) :
  Z.of_nat (length pkts) < 2 ^ (intSize - 1) ->
  bearsHandle pkt = Some h ->
  (forall k, 1 <= k <= openerCount pkts -> h <> Itoa k) ->
  dispatch (fst (packetWorker (NewRequestServer w) pkts)) pkt
  = (fst (packetWorker (NewRequestServer w) pkts),
     inl (sshFxpStatusResponse (id pkt) sshFxFailure
            (Error (Errno syscall.EBADF)))).
Proof.
  intros Hlen Hh Hk.
  destruct (packetWorker_tableInv pkts (NewRequestServer w) 0) as [_ Hinv].
  - simpl. lia.
  - lia.
  - intros h' Hh'. simpl in Hh'. rewrite lookup_empty in Hh'.
    destruct Hh' as [? Hh']. discriminate Hh'.
  - pose proof (packetWorker_count pkts (NewRequestServer w)) as Hc.
    cbn [NewRequestServer handleCount] in Hc.
    specialize (Hc ltac:(lia) ltac:(lia)).
    pose proof (openerCount_servedPrefix pkts) as Ho.
    set (rs := fst (packetWorker (NewRequestServer w) pkts)) in *.
    apply (dispatch_unknown_handle rs pkt h Hh).
    destruct (openRequests rs !! h) eqn:Hl; [|reflexivity].
    destruct (Hinv h (ex_intro _ _ Hl)) as (k & Hk1 & ->).
    exfalso. apply (Hk k); [lia | reflexivity].
Qed.

End Runs.

Lemma use_after_close_witness :
  bearsHandle (sshFxpReadPacket 5 "1" 0 10) = Some "1"
  /\ sent (fst (packetWorker demoServer
                  [sshFxpClosePacket 4 "1"; sshFxpReadPacket 5 "1" 0 10]))
     = sent demoServer
       ++ [ sshFxpStatusResponse 4 sshFxOk "";
            sshFxpStatusResponse 5 sshFxFailure
              (Error (Errno syscall.EBADF)) ].
Proof.
  split; [reflexivity|].
  exact (proj2 (proj2 (@use_after_close demoBackend demoServer 4 4 "1"
                         (sshFxpReadPacket 5 "1" 0 10) eq_refl))).
Defined.

Lemma handles_count_opens_witness :
  isOpener (sshFxpOpendirPacket 9 "/d") = true
  /\ forallb matchesCase
       [sshFxpOpenPacket 1 "/a" 1 0; sshFxpClosePacket 2 "1";
        sshFxpOpenPacket 3 "/b" 1 0] = true
  /\ Z.of_nat (length [sshFxpOpenPacket 1 "/a" 1 0; sshFxpClosePacket 2 "1";
                       sshFxpOpenPacket 3 "/b" 1 0])
     < 2 ^ (intSize - 1) - 1
  /\ snd (dispatch
            (fst (packetWorker (@NewRequestServer demoBackend [])
                    [sshFxpOpenPacket 1 "/a" 1 0; sshFxpClosePacket 2 "1";
                     sshFxpOpenPacket 3 "/b" 1 0]))
            (sshFxpOpendirPacket 9 "/d"))
     = inl (sshFxpHandlePacket 9 (Itoa 3)).
Proof.
  split; [reflexivity|]. split; [reflexivity|].
  assert (Hlen : Z.of_nat (length [sshFxpOpenPacket 1 "/a" 1 0;
                                   sshFxpClosePacket 2 "1";
                                   sshFxpOpenPacket 3 "/b" 1 0])
                 < 2 ^ (intSize - 1) - 1) by (vm_compute; reflexivity).
  split; [exact Hlen|].
  exact (@handles_count_opens demoBackend []
           [sshFxpOpenPacket 1 "/a" 1 0; sshFxpClosePacket 2 "1";
            sshFxpOpenPacket 3 "/b" 1 0]
           (sshFxpOpendirPacket 9 "/d") eq_refl eq_refl Hlen).
Defined.

Lemma handle_stays_bound_witness :
  openRequests demoServer !! Itoa 1 = Some (mkRequest "Open" "/tmp/x" 0 [] "")
  /\ 1 <= 1 <= handleCount demoServer
  /\ handleCount demoServer
     + Z.of_nat (length [sshFxpOpenPacket 2 "/y" 1 0; sshFxpClosePacket 3 "2";
                         sshFxpReadPacket 4 "1" 0 8])
     < 2 ^ (intSize - 1)
  /\ forallb (fun pkt => negb (closesHandle (Itoa 1) pkt))
       [sshFxpOpenPacket 2 "/y" 1 0; sshFxpClosePacket 3 "2";
        sshFxpReadPacket 4 "1" 0 8] = true
  /\ openRequests
       (fst (packetWorker demoServer
               [sshFxpOpenPacket 2 "/y" 1 0; sshFxpClosePacket 3 "2";
                sshFxpReadPacket 4 "1" 0 8])) !! Itoa 1
     = Some (mkRequest "Open" "/tmp/x" 0 [] "").
Proof.
  assert (H1 : openRequests demoServer !! Itoa 1
               = Some (mkRequest "Open" "/tmp/x" 0 [] ""))
    by (vm_compute; reflexivity).
  assert (H2 : 1 <= 1 <= handleCount demoServer)
    by (split; vm_compute; discriminate).
  assert (H3 : handleCount demoServer
               + Z.of_nat (length [sshFxpOpenPacket 2 "/y" 1 0;
                                   sshFxpClosePacket 3 "2";
                                   sshFxpReadPacket 4 "1" 0 8])
               < 2 ^ (intSize - 1)) by (vm_compute; reflexivity).
  assert (H4 : forallb (fun pkt => negb (closesHandle (Itoa 1) pkt))
                 [sshFxpOpenPacket 2 "/y" 1 0; sshFxpClosePacket 3 "2";
                  sshFxpReadPacket 4 "1" 0 8] = true)
    by (vm_compute; reflexivity).
  split; [exact H1|]. split; [exact H2|]. split; [exact H3|].
  split; [exact H4|].
  exact (@handle_stays_bound demoBackend demoServer 1
           (mkRequest "Open" "/tmp/x" 0 [] "")
           [sshFxpOpenPacket 2 "/y" 1 0; sshFxpClosePacket 3 "2";
            sshFxpReadPacket 4 "1" 0 8] H1 H2 H3 H4).
Defined.

Lemma reply_carries_id_witness :
  isInit (sshFxpReaddirPacket 7 "9") = false
  /\ is_Some (fixedShape demoServer (sshFxpReaddirPacket 7 "9"))
  /\ exists rs' rpkt,
       dispatch demoServer (sshFxpReaddirPacket 7 "9") = (rs', inl rpkt)
       /\ replyID rpkt = Some 7.
Proof.
  assert (H : is_Some (fixedShape demoServer (sshFxpReaddirPacket 7 "9")))
    by (exists STATUS; vm_compute; reflexivity).
  split; [reflexivity|]. split; [exact H|].
  exact (@reply_carries_id demoBackend demoServer
           (sshFxpReaddirPacket 7 "9") eq_refl H).
Defined.

Lemma unissued_handle_rejected_witness :
  Z.of_nat (length [sshFxpOpenPacket 1 "/a" 1 0]) < 2 ^ (intSize - 1)
  /\ bearsHandle (sshFxpReadPacket 2 "01" 0 8) = Some "01"
  /\ (forall k, 1 <= k <= openerCount [sshFxpOpenPacket 1 "/a" 1 0] ->
        "01" <> Itoa k)
  /\ dispatch
       (fst (packetWorker (@NewRequestServer demoBackend [])
               [sshFxpOpenPacket 1 "/a" 1 0]))
       (sshFxpReadPacket 2 "01" 0 8)
     = (fst (packetWorker (@NewRequestServer demoBackend [])
               [sshFxpOpenPacket 1 "/a" 1 0]),
        inl (sshFxpStatusResponse 2 sshFxFailure
               (Error (Errno syscall.EBADF)))).
Proof.
  assert (H1 : Z.of_nat (length [sshFxpOpenPacket 1 "/a" 1 0])
               < 2 ^ (intSize - 1)) by (vm_compute; reflexivity).
  assert (H3 : forall k,
             1 <= k <= openerCount [sshFxpOpenPacket 1 "/a" 1 0] ->
             "01" <> Itoa k).
  { intros k Hk. simpl in Hk. assert (k = 1) as -> by lia.
    vm_compute. discriminate. }
  split; [exact H1|]. split; [reflexivity|]. split; [exact H3|].
  exact (@unissued_handle_rejected demoBackend []
           [sshFxpOpenPacket 1 "/a" 1 0] (sshFxpReadPacket 2 "01" 0 8) "01"
           H1 eq_refl H3).
Defined.

(** ** More on path cleaning *)

Lemma Clean_rooted_fixed (p : string) :
  HasPrefix p "/" = true ->
  HasPrefix (Clean p) "/" = true /\ Clean (Clean p) = Clean p.
Proof.
  intros Hp. destruct (Clean_rooted_form p Hp) as (done & Hdone & Hc).
  destruct (rev_bufOf_rooted_head done) as (body & Hb).
  split.
  - rewrite Hc, Hb. exact (HasPrefix_slash "/"%char _).
  - rewrite Hc. apply Clean_rendered, Hdone.
Qed.

Lemma cleanPath_absolute (p : string) :
  HasPrefix p "/" = true -> cleanPath p = Clean p.
Proof.
  intros Hp. rewrite cleanPath_unfold.
  rewrite (proj1 (Clean_rooted_fixed p Hp)). reflexivity.
Qed.

(** [cleanPath] leaves an absolute path clean and is idempotent on
    absolute paths; from any path at all, two applications reach a clean
    absolute path that [cleanPath] no longer changes. *)
Theorem cleanPath_idempotent (p : string) :
  Clean (cleanPath (cleanPath p)) = cleanPath (cleanPath p)
  /\ cleanPath (cleanPath (cleanPath p)) = cleanPath (cleanPath p)
  /\ (HasPrefix p "/" = true ->
      cleanPath p = Clean p
      /\ Clean (cleanPath p) = cleanPath p
      /\ cleanPath (cleanPath p) = cleanPath p).
Proof.
  assert (Habs : forall q, HasPrefix q "/" = true ->
                 cleanPath q = Clean q
                 /\ Clean (cleanPath q) = cleanPath q
                 /\ cleanPath (cleanPath q) = cleanPath q).
  { intros q Hq. destruct (Clean_rooted_fixed q Hq) as [Hr Hf].
    rewrite (cleanPath_absolute q Hq).
    split; [reflexivity|]. split; [exact Hf|].
    rewrite (cleanPath_absolute _ Hr). exact Hf. }
  pose proof (cleanPath_rooted p) as Hr.
  destruct (Habs (cleanPath p) Hr) as (H1 & H2 & H3).
  split; [exact H2|]. split; [exact H3 | apply Habs].
Qed.

Lemma joinElements_snoc (els : list (list ascii)) (c : list ascii) :
  els <> [] ->
  joinElements (els ++ [c]) = joinElements els ++ "/"%char :: c.
Proof.
  induction els as [|e els IH]; [contradiction|]. intros _.
  destruct els as [|e' els'].
  - reflexivity.
  - change (joinElements ((e :: e' :: els') ++ [c]))
      with (e ++ "/"%char :: joinElements ((e' :: els') ++ [c])).
    rewrite IH by discriminate.
    change (joinElements (e :: e' :: els'))
      with (e ++ "/"%char :: joinElements (e' :: els')).
    rewrite <- app_assoc. reflexivity.
Qed.

Lemma rev_bufOf_join (done : list (list ascii)) :
  Forall realElement done ->
  rev (bufOf false [] done) = joinElements (rev done).
Proof.
  intros Hdone. induction Hdone as [|c done Hc Hdone IH]; [reflexivity|].
  cbn [bufOf]. rewrite rev_app_distr, rev_involutive.
  destruct done as [|c' done'].
  - reflexivity.
  - inversion Hdone as [|? ? Hc' _]; subst.
    pose proof (length_bufOf_cons false [] c' done' (proj1 Hc')) as Hlen.
    change (length (@nil ascii)) with 0%nat in Hlen.
    remember (c' :: done') as d eqn:Hd.
    unfold addSlash. cbn [andb negb orb].
    destruct (Nat.eqb_spec (length (bufOf false [] d)) 0) as [H0 | _];
      [lia|].
    cbn [negb].
    change (rev ("/"%char :: bufOf false [] d))
      with (rev (bufOf false [] d) ++ ["/"%char]).
    rewrite IH, <- app_assoc.
    change (rev (c :: d)) with (rev d ++ [c]).
    rewrite joinElements_snoc; [reflexivity|].
    subst d. intros H. apply app_eq_nil in H as [_ H]. discriminate H.
Qed.

(** The cleaning of an absolute path is the root followed by path
    elements joined by single separators, none of them empty, [.] or
    [..]: no request path climbs above the root, and the result is never
    longer than the path. *)
Theorem cleanPath_absolute_elements (p : string) :
  HasPrefix p "/" = true ->
  (exists els,
     Forall realElement els
     /\ cleanPath p = string_of_list_ascii ("/"%char :: joinElements els))
  /\ (String.length (cleanPath p) <= String.length p)%nat.
Proof.
  intros Hp. rewrite (cleanPath_absolute p Hp). split.
  - destruct (Clean_rooted_form p Hp) as (done & Hdone & Hc).
    exists (rev done). split; [apply List.Forall_rev, Hdone|].
    rewrite Hc, rev_bufOf_relative, (rev_bufOf_join done Hdone).
    reflexivity.
  - destruct p as [|c s]; [discriminate Hp|].
    rewrite HasPrefix_slash in Hp. apply isPathSeparator_eq in Hp. subst c.
    exact (Clean_rooted_length s).
Qed.

Lemma atElementEnd_sep (rest : list ascii) :
  atElementEnd (rest ++ ["/"%char]) = atElementEnd rest.
Proof. destruct rest; reflexivity. Qed.

Lemma cleanLoop_trailing (n : nat) :
  forall path, (length path <= n)%nat ->
  forall rooted copying out dotdot,
  cleanLoop rooted copying (path ++ ["/"%char]) out dotdot
  = cleanLoop rooted copying path out dotdot.
Proof.
  induction n as [|n IH]; intros path Hlen rooted copying out dotdot.
  - destruct path; [reflexivity | simpl in Hlen; lia].
  - destruct path as [|x rest]; [reflexivity|].
    simpl in Hlen. assert (Hrest : (length rest <= n)%nat) by lia.
    cbn [app cleanLoop].
    destruct (isPathSeparator x); [apply IH, Hrest|].
    destruct copying; [apply IH, Hrest|].
    rewrite atElementEnd_sep.
    destruct (isDot x && atElementEnd rest); [apply IH, Hrest|].
    destruct rest as [|c1 rest2].
    + cbn [app]. change (isDot "/") with false. rewrite andb_false_r.
      rewrite (IH [] ltac:(simpl; lia)). reflexivity.
    + cbn [app]. rewrite atElementEnd_sep.
      assert (Hrest2 : (length rest2 <= n)%nat) by (simpl in Hrest; lia).
      destruct (isDot x && isDot c1 && atElementEnd rest2).
      * destruct (dotdot <? length out)%nat; [apply IH, Hrest2|].
        destruct (negb rooted); apply IH, Hrest2.
      * apply (IH (c1 :: rest2) Hrest).
Qed.

Lemma list_ascii_of_string_app (s t : string) :
  list_ascii_of_string (String.append s t)
  = list_ascii_of_string s ++ list_ascii_of_string t.
Proof.
  induction s as [|a s IH]; simpl; [reflexivity|]. rewrite IH. reflexivity.
Qed.

Lemma Clean_trailing_slash (c : ascii) (s : string) :
  Clean (String.append (String c s) "/") = Clean (String c s).
Proof.
  unfold Clean. cbn [String.append list_ascii_of_string].
  rewrite list_ascii_of_string_app. cbn [list_ascii_of_string].
  cbn [app].
  rewrite (cleanLoop_trailing _ (list_ascii_of_string s) (le_n _)).
  change (c :: list_ascii_of_string s ++ ["/"%char])
    with ((c :: list_ascii_of_string s) ++ ["/"%char]).
  rewrite (cleanLoop_trailing _ (c :: list_ascii_of_string s) (le_n _)
             false false [] 0%nat).
  reflexivity.
Qed.

(** A separator at the end of a non-empty path makes no difference to
    [cleanPath].  The empty path is the exception: it cleans to ["/."],
    the root alone to ["/"]. *)
Theorem cleanPath_trailing_slash (c : ascii) (s : string) :
  cleanPath (String.append (String c s) "/") = cleanPath (String c s)
  /\ cleanPath "" = "/." /\ cleanPath "/" = "/".
Proof.
  split; [|split; reflexivity].
  rewrite !cleanPath_unfold, Clean_trailing_slash. reflexivity.
Qed.

Lemma cleanPath_absolute_elements_witness :
  HasPrefix "/a/../b/./c//" "/" = true
  /\ (exists els,
        Forall realElement els
        /\ cleanPath "/a/../b/./c//"
           = string_of_list_ascii ("/"%char :: joinElements els))
  /\ (String.length (cleanPath "/a/../b/./c//")
      <= String.length "/a/../b/./c//")%nat.
Proof.
  split; [reflexivity|].
  exact (cleanPath_absolute_elements "/a/../b/./c//" eq_refl).
Defined.
